(** * darktable: GPX track parsing and location lookup (src/common/gpx.c)

    A shallow embedding of [src/common/gpx.c]: the three GMarkup callbacks
    that build the track list while a GPX file is tokenised, the constructor
    [dt_gpx_new] that drives them, and [dt_gpx_get_location], which looks a
    timestamp up in the finished track.

    Conventions of the embedding
    - [gdouble] is an IEEE-754 value ([spec_float]); the C operator [==] on
      doubles is [SFeqb], for which [NAN == NAN] is false.
    - [glong] fields ([tv_sec], [tv_usec]) are integers [Z]; the code only
      compares them, so no wrap-around is involved in any result.
    - Track points live in heap blocks handed out by [g_malloc]; a pointer is
      [option block] with [None] for [NULL].  Block names are never reused,
      and releasing a block twice, or reading or writing through a pointer to
      a released block or through [NULL], is undefined behaviour
      ([Undefined]).  Copying a pointer value is always defined.
    - The [GList] [track] is the list of its [data] pointers, in list order;
      [g_list_append] adds at the end.
    - The glib functions the file calls but does not define
      ([g_ascii_strtod], [g_time_val_from_iso8601], [g_mapped_file_new],
      [g_markup_parse_context_parse]) are variables of the section.
    - Diagnostics printed to [stderr] are not part of the state. *)

From Stdlib Require Import ZArith String List Bool Lia.
From Stdlib Require Import Floats.SpecFloat.
From stdpp Require Import base option gmap list.

Local Open Scope Z_scope.
Local Open Scope string_scope.

(** ** Data model *)

Definition gdouble : Set := spec_float.

(** The macro [NAN] of <math.h>. *)
Definition NAN : gdouble := S754_nan.

(** The value every double has after [memset (.., 0, ..)]: positive zero. *)
Definition zero_double : gdouble := S754_zero false.

(** C's [==] on two doubles. *)
Definition double_eq (x y : gdouble) : bool := SFeqb x y.

Record GTimeVal : Set := mkGTimeVal {
  tv_sec : Z;
  tv_usec : Z
}.

Record _gpx_track_point_t : Set := mk_track_point {
  longitude : gdouble;
  latitude : gdouble;
  elevation : gdouble;
  time : GTimeVal
}.

(** Names of heap blocks, and pointers to a track point. *)
Definition block : Set := positive.
Definition pointer : Set := option block.
Definition NULL : pointer := None.

Record dt_gpx_t : Type := mk_gpx {
  (* the list of track records parsed *)
  track : list pointer;
  (* currently parsed track point *)
  current_track_point : pointer;
  current_parser_element : Z;
  invalid_track_point : bool
}.

Definition GPX_PARSER_ELEMENT_TRKPT : Z := 1.
Definition GPX_PARSER_ELEMENT_TIME : Z := 2.
Definition GPX_PARSER_ELEMENT_ELE : Z := 4.

(** The machine state the callbacks act on: the heap of track points, the
    next block name [g_malloc] hands out, and the [dt_gpx_t] context. *)
Record state : Type := mk_state {
  heap : gmap block _gpx_track_point_t;
  brk : block;
  gpx : dt_gpx_t
}.

(** What running a piece of C code yields. *)
Inductive outcome (A : Type) : Type :=
| Done (a : A)
| Undefined.
Arguments Done {A} a.
Arguments Undefined {A}.

Definition obind {A B : Type} (c : outcome A) (k : A -> outcome B) : outcome B :=
  match c with
  | Done a => k a
  | Undefined => Undefined
  end.

Notation "x <~ c ;; k" := (obind c (fun x => k))
  (at level 100, c at next level, right associativity).

(** *** Field updates *)

Definition set_longitude (v : gdouble) (tp : _gpx_track_point_t) :=
  mk_track_point v (latitude tp) (elevation tp) (time tp).
Definition set_latitude (v : gdouble) (tp : _gpx_track_point_t) :=
  mk_track_point (longitude tp) v (elevation tp) (time tp).
Definition set_elevation (v : gdouble) (tp : _gpx_track_point_t) :=
  mk_track_point (longitude tp) (latitude tp) v (time tp).
Definition set_time (v : GTimeVal) (tp : _gpx_track_point_t) :=
  mk_track_point (longitude tp) (latitude tp) (elevation tp) v.

Definition set_track (v : list pointer) (g : dt_gpx_t) :=
  mk_gpx v (current_track_point g) (current_parser_element g) (invalid_track_point g).
Definition set_current_track_point (v : pointer) (g : dt_gpx_t) :=
  mk_gpx (track g) v (current_parser_element g) (invalid_track_point g).
Definition set_current_parser_element (v : Z) (g : dt_gpx_t) :=
  mk_gpx (track g) (current_track_point g) v (invalid_track_point g).
Definition set_invalid_track_point (v : bool) (g : dt_gpx_t) :=
  mk_gpx (track g) (current_track_point g) (current_parser_element g) v.

(** ** The heap *)

(** [g_malloc (sizeof (_gpx_track_point_t))] followed by [memset (.., 0, ..)]:
    a fresh block whose fields are all zero. *)
Definition zero_track_point : _gpx_track_point_t :=
  mk_track_point zero_double zero_double zero_double (mkGTimeVal 0 0).

Definition g_malloc0 (h : gmap block _gpx_track_point_t) (b : block)
  : block * gmap block _gpx_track_point_t * block :=
  (b, <[b := zero_track_point]> h, Pos.succ b).

(** [g_free p]: nothing for [NULL], releases a live block, undefined on a
    block that was released before. *)
Definition g_free (p : pointer) (h : gmap block _gpx_track_point_t)
  : outcome (gmap block _gpx_track_point_t) :=
  match p with
  | None => Done h
  | Some b =>
      match h !! b with
      | Some _ => Done (delete b h)
      | None => Undefined
      end
  end.

(** Reading [*p]. *)
Definition load (h : gmap block _gpx_track_point_t) (p : pointer)
  : outcome _gpx_track_point_t :=
  match p with
  | None => Undefined
  | Some b =>
      match h !! b with
      | Some tp => Done tp
      | None => Undefined
      end
  end.

(** Writing [*p = tp]. *)
Definition store (h : gmap block _gpx_track_point_t) (p : pointer)
    (tp : _gpx_track_point_t) : outcome (gmap block _gpx_track_point_t) :=
  match p with
  | None => Undefined
  | Some b =>
      match h !! b with
      | Some _ => Done (<[b := tp]> h)
      | None => Undefined
      end
  end.

(** ** Events of the XML tokeniser *)

(** One call of a [GMarkupParser] callback.  The two parallel
    NULL-terminated arrays [attribute_names] and [attribute_values] are a
    list of (name, value) pairs. *)
Inductive markup_event : Set :=
| StartElement (element_name : string) (attributes : list (string * string))
| EndElement (element_name : string)
| Text (text : string).

(** What [g_mapped_file_get_contents] and [g_mapped_file_get_length] return
    for a mapped file. *)
Record GMappedFile : Set := mk_mapped_file {
  mapped_contents : option string;
  mapped_length : Z
}.

(** Conversion of a [gsize] to [gint] (32 bits, two's complement). *)
Definition to_gint (n : Z) : Z := (n + 2 ^ 31) mod 2 ^ 32 - 2 ^ 31.

(** ** Looking a timestamp up *)

(** Which [return] statement of [dt_gpx_get_location] was taken. *)
Inductive return_site : Set :=
| too_few_trackpoints   (* line 135 *)
| out_of_range          (* line 151 *)
| within_range          (* line 160 *)
| after_loop.           (* line 166 *)

(** The result of a call: the [gboolean] returned and the content of the
    locations [lon] and [lat] point to when it returns. *)
Record location : Set := mk_location {
  site : return_site;
  found : bool;
  lon : gdouble;
  lat : gdouble
}.

(** The [do .. while ((item = g_list_next (item)) != NULL)] loop, started at
    the node whose data heads [items]; the loop is only entered on a
    non-empty list, and [items = []] is the exit of the loop. *)
Fixpoint scan_track (h : gmap block _gpx_track_point_t) (timestamp : GTimeVal)
    (items : list pointer) (lon0 lat0 : gdouble) : outcome location :=
  match items with
  | [] => Done (mk_location after_loop false lon0 lat0)
  | item :: next =>
      tp <~ load h item ;;
      (* if timestamp is out of time range return false but fill
         closest location value *)
      if (match next with [] => true | _ => false end
          && (tv_sec timestamp >=? tv_sec (time tp))%Z)
         || (tv_sec timestamp <=? tv_sec (time tp))%Z
      then Done (mk_location out_of_range false (longitude tp) (latitude tp))
      else
        (* check if timestamp is within current and next trackpoint *)
        within <~ (if (tv_sec timestamp >=? tv_sec (time tp))%Z then
                     match next with
                     | [] => Undefined
                     | next_item :: _ =>
                         ntp <~ load h next_item ;;
                         Done (tv_sec timestamp <=? tv_sec (time ntp))%Z
                     end
                   else Done false) ;;
        if within
        then Done (mk_location within_range true (longitude tp) (latitude tp))
        else scan_track h timestamp next lon0 lat0
  end.

Definition dt_gpx_get_location (s : state) (timestamp : GTimeVal)
    (lon0 lat0 : gdouble) : outcome location :=
  let item := track (gpx s) in
  (* verify that we got at least 2 trackpoints *)
  match item with
  | [] | [_] => Done (mk_location too_few_trackpoints false lon0 lat0)
  | _ :: _ :: _ => scan_track (heap s) timestamp item lon0 lat0
  end.

(** [live h p]: the pointer [p] can be dereferenced in the heap [h]. *)
Definition live (h : gmap block _gpx_track_point_t) (p : pointer) : bool :=
  match load h p with
  | Done _ => true
  | Undefined => false
  end.

(** Two track points that differ at most in the sub-second part of their
    timestamp. *)
Definition same_up_to_usec (tp tp' : _gpx_track_point_t) : Prop :=
  longitude tp = longitude tp' /\ latitude tp = latitude tp' /\
  elevation tp = elevation tp' /\ tv_sec (time tp) = tv_sec (time tp').

(** Two heaps with the same blocks, whose track points differ at most in
    the sub-second part of their timestamps. *)
Definition heaps_same_up_to_usec (h h' : gmap block _gpx_track_point_t) : Prop :=
  forall b : block, option_Forall2 same_up_to_usec (h !! b) (h' !! b).

(** ** Sample documents and collaborators *)

(** [<trkpt lat='48.25'></trkpt>]: a track point without [lon]. *)
Definition trkpt_without_lon : list markup_event :=
  [StartElement "trkpt" [("lat", "48.25")]; EndElement "trkpt"].

(** [<trkpt></trkpt>]: a track point without attributes. *)
Definition trkpt_without_attributes : list markup_event :=
  [StartElement "trkpt" []; EndElement "trkpt"].

(** [<trkpt lon='11.5' lat='48.25'></trkpt>]: a track point without time. *)
Definition trkpt_without_time : list markup_event :=
  [StartElement "trkpt" [("lon", "11.5"); ("lat", "48.25")];
   EndElement "trkpt"].

(** A well-formed document in which [trkpt] elements are nested. *)
Definition nested_trkpt_text : string :=
  "<trkpt lon='11.5' lat='48.25'><trkpt><trkpt></trkpt></trkpt></trkpt>".

Definition nested_trkpt : list markup_event :=
  [StartElement "trkpt" [("lon", "11.5"); ("lat", "48.25")];
   StartElement "trkpt" [];
   StartElement "trkpt" [];
   EndElement "trkpt"; EndElement "trkpt"; EndElement "trkpt"].

(** The doubles 11.5 and 48.25. *)
Definition double_11_5 : gdouble := S754_finite false 6473924464345088 (-49).
Definition double_48_25 : gdouble := S754_finite false 6790583813144576 (-47).

(** A stand-in for [g_ascii_strtod] that knows the two numbers used in the
    sample documents and, like the original, yields 0 for text that is not a
    number. *)
Definition sample_strtod (text : string) : gdouble :=
  if text =? "11.5" then double_11_5
  else if text =? "48.25" then double_48_25
  else zero_double.

(** A stand-in for [g_time_val_from_iso8601] that knows one timestamp and
    rejects every other text, leaving the [GTimeVal] as it was. *)
Definition sample_iso8601 (text : string) (old : GTimeVal) : bool * GTimeVal :=
  if text =? "2011-06-05T12:30:00Z" then (true, mkGTimeVal 1307277000 0)
  else (false, old).

(** A mapped file that holds the nested document. *)
Definition sample_mapped_file (filename : string) : option GMappedFile :=
  Some (mk_mapped_file (Some nested_trkpt_text)
          (Z.of_nat (String.length nested_trkpt_text))).

(** The callbacks the tokeniser makes for the nested document. *)
Definition sample_tokeniser (text : string) (text_len : Z)
  : list markup_event * bool :=
  (nested_trkpt, false).

(** ** Sample tracks *)

Definition point_A : _gpx_track_point_t :=
  mk_track_point double_11_5 double_48_25 zero_double (mkGTimeVal 100 0).
Definition point_B : _gpx_track_point_t :=
  mk_track_point double_48_25 double_11_5 zero_double (mkGTimeVal 200 500000).

(** A finished track of two points, at 100 s and at 200 s. *)
Definition two_point_track : state :=
  mk_state (<[2%positive := point_B]> (<[1%positive := point_A]> ∅)) 3%positive
    (mk_gpx [Some 1%positive; Some 2%positive] NULL 0 false).

(** A finished track of one point. *)
Definition one_point_track : state :=
  mk_state (<[1%positive := point_A]> ∅) 2%positive
    (mk_gpx [Some 1%positive] NULL 0 false).

(** The same track point with another sub-second part of its timestamp. *)
Definition with_usec (usec : Z) (tp : _gpx_track_point_t) : _gpx_track_point_t :=
  set_time (mkGTimeVal (tv_sec (time tp)) usec) tp.

(** The state a run ends in, for runs that are defined. *)
Definition final_state (o : outcome state) (otherwise : state) : state :=
  match o with
  | Done s => s
  | Undefined => otherwise
  end.

(** [<gpx><trk><trkseg>], and what closes them. *)
Definition gpx_prologue : list markup_event :=
  [StartElement "gpx" [("version", "1.1")]; StartElement "trk" [];
   StartElement "trkseg" []].
Definition gpx_epilogue : list markup_event :=
  [EndElement "trkseg"; EndElement "trk"; EndElement "gpx"].

(** A well-formed document with one track point, and its callbacks. *)
Definition one_trkpt_text : string :=
  "<gpx><trk><trkseg><trkpt lon='11.5' lat='48.25'><time>2011-06-05T12:30:00Z</time></trkpt></trkseg></trk></gpx>".

Definition one_trkpt : list markup_event :=
  [StartElement "gpx" []; StartElement "trk" []; StartElement "trkseg" [];
   StartElement "trkpt" [("lon", "11.5"); ("lat", "48.25")];
   StartElement "time" []; Text "2011-06-05T12:30:00Z"; EndElement "time";
   EndElement "trkpt";
   EndElement "trkseg"; EndElement "trk"; EndElement "gpx"].

(** ** Regular documents *)

(** A track point as GPX writers emit it: [lat] and [lon] attributes, an
    optional [ele] child, an optional [time] child, and optional white
    space between the tags. *)
Record trkpt_source : Set := mk_trkpt_source {
  src_lat : string;
  src_lon : string;
  src_ele : option string;
  src_time : option string;
  src_space : option string
}.

(** The text callback made for white space between two tags, if any. *)
Definition space_events (space : option string) : list markup_event :=
  match space with
  | Some text => [Text text]
  | None => []
  end.

(** The callbacks made for such a track point. *)
Definition trkpt_events (src : trkpt_source) : list markup_event :=
  StartElement "trkpt" [("lat", src_lat src); ("lon", src_lon src)] ::
    (space_events (src_space src) ++
     match src_ele src with
     | Some text =>
         [StartElement "ele" []; Text text; EndElement "ele"] ++
         space_events (src_space src)
     | None => []
     end ++
     match src_time src with
     | Some text =>
         [StartElement "time" []; Text text; EndElement "time"] ++
         space_events (src_space src)
     | None => []
     end) ++
    [EndElement "trkpt"].

(** A document: track points, and between them any callbacks that neither
    open nor close a [trkpt]. *)
Inductive document_item : Set :=
| Point (src : trkpt_source)
| Markup (e : markup_event).

Definition item_events (i : document_item) : list markup_event :=
  match i with
  | Point src => trkpt_events src
  | Markup e => [e]
  end.

Definition document_events (items : list document_item)
  : list markup_event :=
  List.concat (List.map item_events items).

(** ** Reading a finished track *)

(** The track points the entries of a track point to, in list order, when
    every entry can be dereferenced. *)
Fixpoint track_points (h : gmap block _gpx_track_point_t)
    (items : list pointer) : option (list _gpx_track_point_t) :=
  match items with
  | [] => Some []
  | item :: next =>
      match load h item, track_points h next with
      | Done tp, Some tps => Some (tp :: tps)
      | _, _ => None
      end
  end.

(** The [time.tv_sec] of a track point. *)
Definition seconds (tp : _gpx_track_point_t) : Z := tv_sec (time tp).

(** Each point is not later (in whole seconds) than the one after it. *)
Fixpoint chronological (tps : list _gpx_track_point_t) : bool :=
  match tps with
  | [] => true
  | tp :: next =>
      match next with
      | [] => true
      | ntp :: _ => (seconds tp <=? seconds ntp)%Z && chronological next
      end
  end.

(** Where a return from inside the loop comes from: the result holds the
    coordinates of the point at some position [i] of [items]; every point
    before it is strictly earlier than the query (in whole seconds); an
    out-of-range return is at a point not earlier than the query, or at the
    last one; an in-range return is at a point strictly earlier than the
    query whose successor is not earlier than the query. *)
Definition returned_from (h : gmap block _gpx_track_point_t)
    (items : list pointer) (timestamp : GTimeVal) (r : location) : Prop :=
  exists (i : nat) (item : pointer) (tp : _gpx_track_point_t),
    items !! i = Some item /\ load h item = Done tp /\
    lon r = longitude tp /\ lat r = latitude tp /\
    (forall j item' tp', (j < i)%nat -> items !! j = Some item' ->
        load h item' = Done tp' -> seconds tp' < tv_sec timestamp) /\
    match site r with
    | out_of_range =>
        found r = false /\
        (tv_sec timestamp <= seconds tp \/ S i = length items)
    | within_range =>
        found r = true /\ seconds tp < tv_sec timestamp /\
        exists next_item ntp,
          items !! S i = Some next_item /\ load h next_item = Done ntp /\
          tv_sec timestamp <= seconds ntp
    | _ => False
    end.

(** ** Releasing a track *)

(** [g_list_foreach (items, (GFunc) g_free, NULL)]: [g_free] on the data of
    each node, in list order. *)
Fixpoint g_list_foreach_g_free (items : list pointer)
    (h : gmap block _gpx_track_point_t)
  : outcome (gmap block _gpx_track_point_t) :=
  match items with
  | [] => Done h
  | item :: next => h' <~ g_free item h ;; g_list_foreach_g_free next h'
  end.

(** [dt_gpx_destroy]: the heap of track points it leaves.  The context
    itself is released too; the nodes of the list and a point still under
    construction are not. *)
Definition dt_gpx_destroy (s : state)
  : outcome (gmap block _gpx_track_point_t) :=
  match track (gpx s) with
  | [] => Done (heap s)
  | _ :: _ => g_list_foreach_g_free (track (gpx s)) (heap s)
  end.

(** ** More sample documents *)

(** A document with metadata but no track point. *)
Definition metadata_only : list markup_event :=
  [StartElement "gpx" []; StartElement "metadata" [];
   StartElement "time" []; Text "2011-06-05T12:30:00Z"; EndElement "time";
   EndElement "metadata"; StartElement "ele" []; Text "520"; EndElement "ele";
   EndElement "gpx"].

(** Three regular track points: one without time, one whose time is not a
    timestamp, one with a timestamp and an elevation. *)
Definition source_without_time : trkpt_source :=
  mk_trkpt_source "48.25" "11.5" None None (Some " ").
Definition source_bad_time : trkpt_source :=
  mk_trkpt_source "48.25" "11.5" None (Some "yesterday") None.
Definition source_complete : trkpt_source :=
  mk_trkpt_source "11.5" "48.25" (Some "11.5") (Some "2011-06-05T12:30:00Z")
    (Some " ").

Definition regular_sample : list document_item :=
  [Markup (StartElement "gpx" []); Markup (Text " ");
   Markup (StartElement "time" []); Markup (Text "2011-06-05T12:30:00Z");
   Markup (EndElement "time");
   Markup (StartElement "trkseg" []);
   Point source_without_time; Markup (Text " ");
   Point source_bad_time;
   Point source_complete;
   Markup (EndElement "trkseg"); Markup (EndElement "gpx")].

(** [<trkpt lon='11.5'><ele>520</ele><trkpt lat='48.25'></trkpt></trkpt>]:
    a [trkpt] opened before the previous one ended. *)
Definition reopened_trkpt : list markup_event :=
  [StartElement "trkpt" [("lon", "11.5")];
   StartElement "ele" []; Text "520"; EndElement "ele";
   StartElement "trkpt" [("lat", "48.25")];
   EndElement "trkpt"; EndElement "trkpt"].

Section Gpx.

Set Default Proof Using "Type".

(** glib's locale-independent [strtod]. *)
Variable g_ascii_strtod : string -> gdouble.

(** glib's ISO-8601 reader: from the text and the current content of the
    [GTimeVal] it is given, whether it succeeded and what it left there. *)
Variable g_time_val_from_iso8601 : string -> GTimeVal -> bool * GTimeVal.

(** [g_mapped_file_new filename]: the mapped file, or [None] on error. *)
Variable g_mapped_file_new : string -> option GMappedFile.

(** [g_markup_parse_context_parse ctx text text_len &err]: the callbacks it
    makes, in order, and whether it sets [err].  The callbacks of this file
    never set the error themselves. *)
Variable g_markup_parse_context_parse : string -> Z -> list markup_event * bool.

(** ** The parser callbacks *)

(** The [while] loop over the attributes in [_gpx_parser_start_element],
    acting on the fields of the current track point. *)
Fixpoint scan_attributes (attributes : list (string * string))
    (tp : _gpx_track_point_t) : _gpx_track_point_t :=
  match attributes with
  | [] => tp
  | (attribute_name, attribute_value) :: rest =>
      scan_attributes rest
        (if attribute_name =? "lon"
         then set_longitude (g_ascii_strtod attribute_value) tp
         else if attribute_name =? "lat"
         then set_latitude (g_ascii_strtod attribute_value) tp
         else tp)
  end.

Definition _gpx_parser_start_element (element_name : string)
    (attributes : list (string * string)) (s : state) : outcome state :=
  let g := gpx s in
  if element_name =? "trkpt" then
    (* new trkpt element before the previous ended: the block is released,
       the pointer is left as it is *)
    h <~ (match current_track_point g with
          | Some b => g_free (Some b) (heap s)
          | None => Done (heap s)
          end) ;;
    let g := set_invalid_track_point false g in
    match attributes with
    | _ :: _ =>
        let '(b, h, brk') := g_malloc0 h (brk s) in
        let g := set_current_track_point (Some b) g in
        (* initialize with NAN for validation check *)
        let tp := set_latitude NAN (set_longitude NAN zero_track_point) in
        (* go thru the attributes to find and get values of lon / lat *)
        let tp := scan_attributes attributes tp in
        (* validate that we actually got lon / lat attribute values *)
        let g :=
          if double_eq (longitude tp) NAN || double_eq (latitude tp) NAN
          then set_invalid_track_point true g
          else g in
        Done (mk_state (<[b := tp]> h) brk'
                (set_current_parser_element GPX_PARSER_ELEMENT_TRKPT g))
    | [] =>
        Done (mk_state h (brk s)
                (set_current_parser_element GPX_PARSER_ELEMENT_TRKPT g))
    end
  else if element_name =? "time" then
    match current_track_point g with
    | None => Done s
    | Some _ =>
        Done (mk_state (heap s) (brk s)
                (set_current_parser_element GPX_PARSER_ELEMENT_TIME g))
    end
  else if element_name =? "ele" then
    match current_track_point g with
    | None => Done s
    | Some _ =>
        Done (mk_state (heap s) (brk s)
                (set_current_parser_element GPX_PARSER_ELEMENT_ELE g))
    end
  else Done s.

Definition _gpx_parser_end_element (element_name : string) (s : state)
  : outcome state :=
  let g := gpx s in
  (* closing trackpoint lets take care of data parsed *)
  s1 <~ (if element_name =? "trkpt" then
           if negb (invalid_track_point g) then
             Done (mk_state (heap s) (brk s)
                     (set_current_track_point NULL
                        (set_track (track g ++ [current_track_point g]) g)))
           else
             h <~ g_free (current_track_point g) (heap s) ;;
             Done (mk_state h (brk s) (set_current_track_point NULL g))
         else Done s) ;;
  (* clear current parser element *)
  Done (mk_state (heap s1) (brk s1) (set_current_parser_element 0 (gpx s1))).

Definition _gpx_parser_text (text : string) (s : state) : outcome state :=
  let g := gpx s in
  match current_track_point g with
  | None => Done s
  | Some b =>
      if (current_parser_element g =? GPX_PARSER_ELEMENT_TIME)%Z then
        tp <~ load (heap s) (Some b) ;;
        let '(ok, t) := g_time_val_from_iso8601 text (time tp) in
        h <~ store (heap s) (Some b) (set_time t tp) ;;
        Done (mk_state h (brk s)
                (if ok then g else set_invalid_track_point true g))
      else if (current_parser_element g =? GPX_PARSER_ELEMENT_ELE)%Z then
        tp <~ load (heap s) (Some b) ;;
        h <~ store (heap s) (Some b)
               (set_elevation (g_ascii_strtod text) tp) ;;
        Done (mk_state h (brk s) g)
      else Done s
  end.

(** The [GMarkupParser] table [_gpx_parser]: which callback an event calls. *)
Definition _gpx_parser (e : markup_event) (s : state) : outcome state :=
  match e with
  | StartElement element_name attributes =>
      _gpx_parser_start_element element_name attributes s
  | EndElement element_name => _gpx_parser_end_element element_name s
  | Text text => _gpx_parser_text text s
  end.

(** The callbacks made for a sequence of events, in order. *)
Fixpoint run_events (events : list markup_event) (s : state) : outcome state :=
  match events with
  | [] => Done s
  | e :: rest => s' <~ _gpx_parser e s ;; run_events rest s'
  end.

(** The context after [g_malloc] and [memset (gpx, 0, sizeof (dt_gpx_t))],
    with no track point allocated yet. *)
Definition new_context : state :=
  mk_state ∅ 1%positive (mk_gpx [] NULL 0 false).

(** [dt_gpx_new]: [Done None] is the [NULL] returned on the error path,
    [Done (Some s)] the context returned, with the heap it points into. *)
Definition dt_gpx_new (filename : string) : outcome (option state) :=
  (* map gpx file to parse into memory *)
  match g_mapped_file_new filename with
  | None => Done None
  | Some gpxmf =>
      let gpxmf_size := to_gint (mapped_length gpxmf) in
      match mapped_contents gpxmf with
      | None => Done None
      | Some gpxmf_content =>
          if (gpxmf_size <? 10)%Z then Done None
          else
            (* initialize the parser and start parse gpx xml data *)
            let '(events, err) :=
              g_markup_parse_context_parse gpxmf_content gpxmf_size in
            s <~ run_events events new_context ;;
            if err then Done None else Done (Some s)
      end
  end.

(** ** Vocabulary for statements about documents *)

(** The value the attribute loop ends up using for the attribute [name]:
    that of its last occurrence, since later assignments overwrite. *)
Fixpoint attribute_value (name : string) (attributes : list (string * string))
  : option string :=
  match attributes with
  | [] => None
  | (n, v) :: rest =>
      match attribute_value name rest with
      | Some v' => Some v'
      | None => if n =? name then Some v else None
      end
  end.

(** An event that opens or closes a [trkpt] element. *)
Definition trkpt_event (e : markup_event) : bool :=
  match e with
  | StartElement n _ => n =? "trkpt"
  | EndElement n => n =? "trkpt"
  | Text _ => false
  end.

(** An event that opens an element called [name]. *)
Definition opens (name : string) (e : markup_event) : bool :=
  match e with
  | StartElement n _ => n =? name
  | _ => false
  end.

(** The events of one [trkpt] element with the given attributes and the
    events [body] of its content. *)
Definition trkpt_element (attributes : list (string * string))
    (body : list markup_event) : list markup_event :=
  StartElement "trkpt" attributes :: body ++ [EndElement "trkpt"].

(** The events of a [time] child holding one run of text. *)
Definition time_element (attributes : list (string * string)) (text : string)
  : list markup_event :=
  [StartElement "time" attributes; Text text; EndElement "time"].

(** A timestamp a stored point may carry: the zero left by [memset], or
    what a successful call of [g_time_val_from_iso8601] on a text of the
    document produced. *)
Definition default_or_parsed (document : list markup_event) (t : GTimeVal)
  : Prop :=
  t = mkGTimeVal 0 0 \/
  exists text old,
    In (Text text) document /\
    g_time_val_from_iso8601 text old = (true, t).

(** Block names in use are below [brk], and the point under construction
    is not yet in the track. *)
Record consistent (s : state) : Prop := mk_consistent {
  heap_below : forall b, is_Some (heap s !! b) -> (b < brk s)%positive;
  current_below :
    forall b, current_track_point (gpx s) = Some b -> (b < brk s)%positive;
  track_below :
    forall b, In (Some b) (track (gpx s)) -> (b < brk s)%positive;
  current_not_in_track :
    forall b, current_track_point (gpx s) = Some b ->
              ~ In (Some b) (track (gpx s))
}.

(** Every live point of the track, and the point under construction while
    it is not marked invalid, carries a timestamp that is the default or
    was parsed successfully. *)
Record timestamps_ok (document : list markup_event) (s : state) : Prop :=
  mk_timestamps_ok {
  track_times :
    forall b tp, In (Some b) (track (gpx s)) -> heap s !! b = Some tp ->
                 default_or_parsed document (time tp);
  current_time :
    forall b tp, current_track_point (gpx s) = Some b ->
                 heap s !! b = Some tp ->
                 invalid_track_point (gpx s) = false ->
                 default_or_parsed document (time tp)
}.

(** The block [b] was handed out, is not the point under construction and
    is not in the track. *)
Definition retired (b : block) (s : state) : Prop :=
  (b < brk s)%positive /\ current_track_point (gpx s) <> Some b /\
  ~ In (Some b) (track (gpx s)).

(** The block [b] holds [tp] and is no longer under construction. *)
Definition kept (b : block) (tp : _gpx_track_point_t) (s : state) : Prop :=
  (b < brk s)%positive /\ current_track_point (gpx s) <> Some b /\
  heap s !! b = Some tp.

(** The point under construction is the live block [b] holding [tp]. *)
Definition building (b : block) (tp : _gpx_track_point_t) (s : state) : Prop :=
  current_track_point (gpx s) = Some b /\ heap s !! b = Some tp.

(** What the events inside a [trkpt] may do to the state while the block
    [b] is under construction: only the content of [b] changes, its
    coordinates stay, and an invalid mark is never taken back. *)
Definition body_effect (b : block) (tp : _gpx_track_point_t) (s : state)
    (tp' : _gpx_track_point_t) (s' : state) : Prop :=
  heap s' = <[b := tp']> (heap s) /\ brk s' = brk s /\
  track (gpx s') = track (gpx s) /\
  current_track_point (gpx s') = Some b /\
  longitude tp' = longitude tp /\ latitude tp' = latitude tp /\
  (invalid_track_point (gpx s) = true -> invalid_track_point (gpx s') = true).

(** No [time] element is open, or opened by the events. *)
Definition time_untouched (tp : _gpx_track_point_t) (s : state)
    (tp' : _gpx_track_point_t) (s' : state) : Prop :=
  current_parser_element (gpx s') <> GPX_PARSER_ELEMENT_TIME /\
  invalid_track_point (gpx s') = invalid_track_point (gpx s) /\
  time tp' = time tp.

(** No [ele] element is open, or opened by the events. *)
Definition elevation_untouched (tp : _gpx_track_point_t)
    (tp' : _gpx_track_point_t) (s' : state) : Prop :=
  current_parser_element (gpx s') <> GPX_PARSER_ELEMENT_ELE /\
  elevation tp' = elevation tp.

(** Whether an event may follow when we are [inside] a [trkpt] element or
    not, and whether we are inside one after it; [None] when the event
    opens a [trkpt] inside a [trkpt]. *)
Definition nesting (inside : bool) (e : markup_event) : option bool :=
  match e with
  | StartElement n _ =>
      if n =? "trkpt" then (if inside then None else Some true)
      else Some inside
  | EndElement n => if n =? "trkpt" then Some false else Some inside
  | Text _ => Some inside
  end.

(** No [trkpt] element of the events is opened inside another one. *)
Fixpoint unnested (inside : bool) (events : list markup_event) : bool :=
  match events with
  | [] => true
  | e :: rest =>
      match nesting inside e with
      | Some inside' => unnested inside' rest
      | None => false
      end
  end.

(** The current pointer is [NULL] outside a [trkpt] element, and [NULL] or
    a live block inside one. *)
Definition no_dangling (inside : bool) (s : state) : Prop :=
  match current_track_point (gpx s) with
  | None => True
  | Some b => inside = true /\ is_Some (heap s !! b)
  end.

(** ** Further vocabulary *)

(** An event that closes a [trkpt] element. *)
Definition closes_trkpt (e : markup_event) : bool :=
  match e with
  | EndElement n => n =? "trkpt"
  | _ => false
  end.

(** The block [b] was handed out and released, and no pointer to it is
    left in the context. *)
Definition released (b : block) (s : state) : Prop :=
  retired b s /\ heap s !! b = None.

(** The blocks the entries of a track point to. *)
Fixpoint blocks_of (items : list pointer) : list block :=
  match items with
  | [] => []
  | Some b :: next => b :: blocks_of next
  | None :: next => blocks_of next
  end.

(** Every live block is the data of exactly one node of the track or the
    point under construction, and every node with data points to a live
    block. *)
Record owned (s : state) : Prop := mk_owned {
  live_is_reachable :
    forall b, is_Some (heap s !! b) ->
              In (Some b) (track (gpx s)) \/
              current_track_point (gpx s) = Some b;
  track_is_live :
    forall b, In (Some b) (track (gpx s)) -> is_Some (heap s !! b);
  track_distinct : NoDup (blocks_of (track (gpx s)))
}.

(** ** Regular documents *)

(** Between track points, only callbacks that neither open nor close a
    [trkpt]. *)
Definition regular_item (i : document_item) : bool :=
  match i with
  | Point _ => true
  | Markup e => negb (trkpt_event e)
  end.

(** Whether the time of a track point, if it has one, is accepted. *)
Definition source_valid (src : trkpt_source) : bool :=
  match src_time src with
  | Some text => fst (g_time_val_from_iso8601 text (mkGTimeVal 0 0))
  | None => true
  end.

(** The track point a source describes. *)
Definition source_point (src : trkpt_source) : _gpx_track_point_t :=
  mk_track_point
    (g_ascii_strtod (src_lon src))
    (g_ascii_strtod (src_lat src))
    match src_ele src with
    | Some text => g_ascii_strtod text
    | None => zero_double
    end
    match src_time src with
    | Some text => snd (g_time_val_from_iso8601 text (mkGTimeVal 0 0))
    | None => mkGTimeVal 0 0
    end.

(** The track points of the sources whose time is accepted, in document
    order. *)
Fixpoint document_points (items : list document_item)
  : list _gpx_track_point_t :=
  match items with
  | [] => []
  | Point src :: rest =>
      if source_valid src then source_point src :: document_points rest
      else document_points rest
  | Markup _ :: rest => document_points rest
  end.

(** * Properties of the parser callbacks *)

(** ** Basic facts *)

(** Comparing anything with [NAN] by [==] is false. *)
Lemma double_eq_NAN (x : gdouble) : double_eq x NAN = false.
Proof. destruct x; reflexivity. Qed.

Lemma obind_Done {A B : Type} (c : outcome A) (k : A -> outcome B) (r : B) :
  obind c k = Done r -> exists a, c = Done a /\ k a = Done r.
Proof. destruct c as [a|]; simpl; [eauto | discriminate]. Qed.

Lemma run_events_app (l1 l2 : list markup_event) (s : state) :
  run_events (l1 ++ l2) s = (s1 <~ run_events l1 s ;; run_events l2 s1).
Proof.
  revert s. induction l1 as [|e l1 IH]; intros s; [reflexivity|].
  simpl. destruct (_gpx_parser e s) as [s'|]; simpl; [apply IH | reflexivity].
Qed.

Lemma run_events_app_Done (l1 l2 : list markup_event) (s r : state) :
  run_events (l1 ++ l2) s = Done r ->
  exists s1, run_events l1 s = Done s1 /\ run_events l2 s1 = Done r.
Proof. rewrite run_events_app. apply obind_Done. Qed.

Lemma run_events_cons_Done (e : markup_event) (l : list markup_event)
    (s r : state) :
  run_events (e :: l) s = Done r ->
  exists s1, _gpx_parser e s = Done s1 /\ run_events l s1 = Done r.
Proof. simpl. apply obind_Done. Qed.

(** The attribute loop touches neither the elevation nor the time. *)
Lemma scan_attributes_elevation attributes tp :
  elevation (scan_attributes attributes tp) = elevation tp.
Proof.
  revert tp. induction attributes as [|[n v] rest IH]; intros tp; [reflexivity|].
  simpl. rewrite IH. destruct (n =? "lon"); [reflexivity|].
  destruct (n =? "lat"); reflexivity.
Qed.

Lemma scan_attributes_time attributes tp :
  time (scan_attributes attributes tp) = time tp.
Proof.
  revert tp. induction attributes as [|[n v] rest IH]; intros tp; [reflexivity|].
  simpl. rewrite IH. destruct (n =? "lon"); [reflexivity|].
  destruct (n =? "lat"); reflexivity.
Qed.

Lemma scan_attributes_longitude attributes tp :
  longitude (scan_attributes attributes tp) =
  match attribute_value "lon" attributes with
  | Some v => g_ascii_strtod v
  | None => longitude tp
  end.
Proof.
  revert tp. induction attributes as [|[n v] rest IH]; intros tp; [reflexivity|].
  simpl. rewrite IH. destruct (attribute_value "lon" rest); [reflexivity|].
  destruct (n =? "lon"); [reflexivity|].
  destruct (n =? "lat"); reflexivity.
Qed.

Lemma scan_attributes_latitude attributes tp :
  latitude (scan_attributes attributes tp) =
  match attribute_value "lat" attributes with
  | Some v => g_ascii_strtod v
  | None => latitude tp
  end.
Proof.
  revert tp. induction attributes as [|[n v] rest IH]; intros tp; [reflexivity|].
  simpl. rewrite IH. destruct (attribute_value "lat" rest); [reflexivity|].
  destruct (String.eqb_spec n "lon") as [->|Hlon]; [reflexivity|].
  destruct (n =? "lat"); reflexivity.
Qed.

(** The validation of [lon] and [lat] never marks a point invalid: whatever
    the attributes, the flag is clear when a [trkpt] has been opened. *)
Lemma start_trkpt_never_invalid attributes s s' :
  _gpx_parser_start_element "trkpt" attributes s = Done s' ->
  invalid_track_point (gpx s') = false.
Proof.
  unfold _gpx_parser_start_element. cbn [String.eqb Ascii.eqb Bool.eqb].
  intros H. apply obind_Done in H as (h & _ & H).
  destruct attributes as [|a rest]; [now inversion H|].
  cbn [g_malloc0] in H. rewrite !double_eq_NAN in H. now inversion H.
Qed.

(** ** What one callback does to the state *)

Lemma g_free_Done p h h' :
  g_free p h = Done h' ->
  (p = None /\ h' = h) \/
  (exists b, p = Some b /\ is_Some (h !! b) /\ h' = delete b h).
Proof.
  destruct p as [b|]; simpl.
  - destruct (h !! b) eqn:E; [|discriminate].
    intros [= <-]. right. exists b. rewrite E. eauto.
  - intros [= <-]. now left.
Qed.

Lemma g_free_lookup p h h' b :
  g_free p h = Done h' -> h' !! b = None \/ h' !! b = h !! b.
Proof.
  intros H. apply g_free_Done in H as [[_ ->]|(b' & _ & _ & ->)]; [now right|].
  destruct (decide (b' = b)) as [->|Hne].
  - left. apply lookup_delete_eq.
  - right. now apply lookup_delete_ne.
Qed.

Lemma g_free_lookup_ne p h h' b :
  g_free p h = Done h' -> p <> Some b -> h' !! b = h !! b.
Proof.
  intros H Hne. apply g_free_Done in H as [[_ ->]|(b' & -> & _ & ->)].
  - reflexivity.
  - apply lookup_delete_ne. congruence.
Qed.

(** Opening a [trkpt] that has attributes: the block of a point still under
    construction is released, and a fresh block becomes the current point. *)
Lemma start_trkpt_Done attributes s s1 :
  attributes <> [] ->
  _gpx_parser_start_element "trkpt" attributes s = Done s1 ->
  exists h,
    g_free (current_track_point (gpx s)) (heap s) = Done h /\
    s1 = mk_state
           (<[brk s := scan_attributes attributes
                         (set_latitude NAN (set_longitude NAN zero_track_point))]> h)
           (Pos.succ (brk s))
           (mk_gpx (track (gpx s)) (Some (brk s)) GPX_PARSER_ELEMENT_TRKPT false).
Proof.
  intros Hne. unfold _gpx_parser_start_element.
  cbn [String.eqb Ascii.eqb Bool.eqb].
  intros H. apply obind_Done in H as (h & Hfree & H).
  exists h. split.
  { destruct (current_track_point (gpx s)); exact Hfree. }
  destruct attributes as [|a rest]; [congruence|].
  cbn [g_malloc0] in H. rewrite !double_eq_NAN in H.
  cbn [orb] in H. injection H as <-.
  rewrite insert_insert_eq. reflexivity.
Qed.

(** Opening a [trkpt] without attributes: a point still under construction
    is released, but the pointer to it stays in the context. *)
Lemma start_trkpt_empty_Done s s1 :
  _gpx_parser_start_element "trkpt" [] s = Done s1 ->
  exists h,
    g_free (current_track_point (gpx s)) (heap s) = Done h /\
    s1 = mk_state h (brk s)
           (mk_gpx (track (gpx s)) (current_track_point (gpx s))
              GPX_PARSER_ELEMENT_TRKPT false).
Proof.
  unfold _gpx_parser_start_element. cbn [String.eqb Ascii.eqb Bool.eqb].
  intros H. apply obind_Done in H as (h & Hfree & H).
  exists h. split.
  { destruct (current_track_point (gpx s)); exact Hfree. }
  now inversion H.
Qed.

(** Opening any other element changes at most the element classification. *)
Lemma start_other_Done n attributes s :
  (n =? "trkpt") = false ->
  exists c,
    _gpx_parser_start_element n attributes s =
      Done (mk_state (heap s) (brk s) (set_current_parser_element c (gpx s))) /\
    ((n =? "time") = false -> c = GPX_PARSER_ELEMENT_TIME -> 
       current_parser_element (gpx s) = GPX_PARSER_ELEMENT_TIME) /\
    ((n =? "ele") = false -> c = GPX_PARSER_ELEMENT_ELE -> 
       current_parser_element (gpx s) = GPX_PARSER_ELEMENT_ELE) /\
    ((n =? "time") = true -> current_track_point (gpx s) <> None ->
       c = GPX_PARSER_ELEMENT_TIME).
Proof.
  intros Hn. unfold _gpx_parser_start_element. rewrite Hn.
  destruct s as [h k [tr cur cpe inv]]; cbn.
  destruct (String.eqb_spec n "time") as [->|Htime].
  - destruct cur as [b|]; [exists GPX_PARSER_ELEMENT_TIME | exists cpe];
      repeat split; try congruence; try discriminate.
  - destruct (String.eqb_spec n "ele") as [->|Hele].
    + destruct cur as [b|]; [exists GPX_PARSER_ELEMENT_ELE | exists cpe];
        repeat split; try congruence; try discriminate.
    + exists cpe. repeat split; try congruence; try discriminate.
Qed.

(** Closing an element. *)
Lemma end_element_Done n s s1 :
  _gpx_parser_end_element n s = Done s1 ->
  ((n =? "trkpt") = false /\
   s1 = mk_state (heap s) (brk s) (set_current_parser_element 0 (gpx s))) \/
  ((n =? "trkpt") = true /\ invalid_track_point (gpx s) = false /\
   s1 = mk_state (heap s) (brk s)
          (mk_gpx (track (gpx s) ++ [current_track_point (gpx s)]) NULL 0 false)) \/
  ((n =? "trkpt") = true /\ invalid_track_point (gpx s) = true /\
   exists h, g_free (current_track_point (gpx s)) (heap s) = Done h /\
   s1 = mk_state h (brk s) (mk_gpx (track (gpx s)) NULL 0 true)).
Proof.
  unfold _gpx_parser_end_element.
  destruct s as [h k [tr cur cpe inv]]; cbn.
  destruct (n =? "trkpt").
  - destruct inv; cbn.
    + intros H. apply obind_Done in H as (s' & H & [= <-]).
      apply obind_Done in H as (h' & Hfree & [= <-]).
      right; right. repeat split. exists h'. split; [exact Hfree | reflexivity].
    + intros [= <-]. right; left. repeat split.
  - intros [= <-]. left. split; reflexivity.
Qed.

(** Text: nothing without a current point; otherwise the time or the
    elevation of the current point is written, according to the element
    classification. *)
Lemma text_Done text s s1 :
  _gpx_parser_text text s = Done s1 ->
  s1 = s \/
  exists b tp,
    current_track_point (gpx s) = Some b /\ heap s !! b = Some tp /\
    ((current_parser_element (gpx s) = GPX_PARSER_ELEMENT_TIME /\
      s1 = mk_state
             (<[b := set_time (snd (g_time_val_from_iso8601 text (time tp))) tp]>
                (heap s))
             (brk s)
             (set_invalid_track_point
                (if fst (g_time_val_from_iso8601 text (time tp))
                 then invalid_track_point (gpx s) else true)
                (gpx s))) \/
     (current_parser_element (gpx s) = GPX_PARSER_ELEMENT_ELE /\
      s1 = mk_state (<[b := set_elevation (g_ascii_strtod text) tp]> (heap s))
             (brk s) (gpx s))).
Proof.
  unfold _gpx_parser_text.
  destruct s as [h k [tr cur cpe inv]]; cbn.
  destruct cur as [b|]; [|intros [= <-]; now left].
  destruct (Z.eqb_spec cpe GPX_PARSER_ELEMENT_TIME) as [->|Ht].
  - destruct (h !! b) as [tp|] eqn:E; cbn; [|discriminate].
    destruct (g_time_val_from_iso8601 text (time tp)) as [ok t] eqn:Eiso.
    cbn. intros [= <-]. right. exists b, tp.
    split; [reflexivity|]. split; [exact E|]. left.
    rewrite Eiso. split; [reflexivity|]. now destruct ok.
  - destruct (Z.eqb_spec cpe GPX_PARSER_ELEMENT_ELE) as [->|He].
    + destruct (h !! b) as [tp|] eqn:E; cbn; [|discriminate].
      intros [= <-]. right. exists b, tp.
      split; [reflexivity|]. split; [exact E|]. right. split; reflexivity.
    + intros [= <-]. now left.
Qed.

(** ** Invariants of the parser state *)

Lemma consistent_new_context : consistent new_context.
Proof.
  constructor; cbn.
  - intros b [tp H]. now rewrite lookup_empty in H.
  - discriminate.
  - intros b [].
  - discriminate.
Qed.

Lemma g_free_is_Some p h h' b :
  g_free p h = Done h' -> is_Some (h' !! b) -> is_Some (h !! b).
Proof.
  intros H Hb. destruct (g_free_lookup _ _ _ b H) as [E|E]; rewrite E in Hb.
  - now destruct Hb.
  - exact Hb.
Qed.

Lemma consistent_step e s s' :
  consistent s -> _gpx_parser e s = Done s' -> consistent s'.
Proof.
  intros [Hh Hc Ht Hn] H. destruct e as [n attributes|n|text]; cbn in H.
  - destruct (String.eqb_spec n "trkpt") as [->|Hne].
    + destruct attributes as [|a rest].
      * apply start_trkpt_empty_Done in H as (h & Hfree & ->).
        constructor; cbn; eauto using g_free_is_Some.
      * apply start_trkpt_Done in H as (h & Hfree & ->); [|discriminate].
        constructor; cbn.
        -- intros b Hb. destruct (decide (brk s = b)) as [<-|Hb'].
           ++ lia.
           ++ rewrite lookup_insert_ne in Hb by exact Hb'.
              apply (g_free_is_Some _ _ _ _ Hfree), Hh in Hb. lia.
        -- intros b [= <-]. lia.
        -- intros b Hb. apply Ht in Hb. lia.
        -- intros b [= <-] Hb. apply Ht in Hb. lia.
    + apply String.eqb_neq in Hne.
      destruct (start_other_Done n attributes s Hne) as (c & E & _).
      rewrite E in H. injection H as <-. constructor; cbn; eauto.
  - apply end_element_Done in H
      as [(_ & ->)|[(_ & _ & ->)|(_ & _ & h & Hfree & ->)]];
      constructor; cbn; eauto using g_free_is_Some; try discriminate.
    intros b Hb. apply in_app_or in Hb as [Hb|[Hb|[]]]; eauto.
  - apply text_Done in H as [->|(b & tp & Hcur & Hlive & [(_ & ->)|(_ & ->)])].
    + now constructor.
    + constructor; cbn.
      * intros b' Hb'. destruct (decide (b = b')) as [<-|Hne]; [eauto|].
        rewrite lookup_insert_ne in Hb' by exact Hne. eauto.
      * assumption.
      * assumption.
      * assumption.
    + constructor; cbn; eauto.
      intros b' Hb'. destruct (decide (b = b')) as [<-|Hne]; [eauto|].
      rewrite lookup_insert_ne in Hb' by exact Hne. eauto.
Qed.

Lemma consistent_run events s s' :
  consistent s -> run_events events s = Done s' -> consistent s'.
Proof.
  revert s. induction events as [|e rest IH]; intros s Hs H.
  - now injection H as <-.
  - apply run_events_cons_Done in H as (s1 & H1 & H).
    eauto using consistent_step.
Qed.

Lemma timestamps_ok_new_context document :
  timestamps_ok document new_context.
Proof. constructor; cbn; [intros b tp [] | discriminate]. Qed.

Lemma timestamps_ok_step document e s s' :
  In e document ->
  consistent s -> timestamps_ok document s -> _gpx_parser e s = Done s' ->
  timestamps_ok document s'.
Proof.
  intros He [Hh Hc Ht Hn] [Htr Hcur] H.
  destruct e as [n attributes|n|text]; cbn in H.
  - destruct (String.eqb_spec n "trkpt") as [->|Hne].
    + destruct attributes as [|a rest].
      * apply start_trkpt_empty_Done in H as (h & Hfree & ->).
        constructor; cbn.
        -- intros b tp Hb E.
           destruct (g_free_lookup _ _ _ b Hfree) as [E'|E']; [congruence|].
           rewrite E' in E. eauto.
        -- intros b tp Hb E _.
           apply g_free_Done in Hfree as [[Hnone _]|(b' & Hb' & _ & ->)];
             [congruence|].
           assert (b' = b) as -> by congruence.
           now rewrite lookup_delete_eq in E.
      * apply start_trkpt_Done in H as (h & Hfree & ->); [|discriminate].
        constructor; cbn.
        -- intros b tp Hb E. pose proof (Ht _ Hb) as Hlt.
           rewrite lookup_insert_ne in E by lia.
           destruct (g_free_lookup _ _ _ b Hfree) as [E'|E']; [congruence|].
           rewrite E' in E. eauto.
        -- intros b tp [= <-] E _. rewrite lookup_insert_eq in E.
           injection E as <-. left.
           exact (scan_attributes_time (a :: rest) _).
    + apply String.eqb_neq in Hne.
      destruct (start_other_Done n attributes s Hne) as (c & E & _).
      rewrite E in H. injection H as <-. constructor; cbn; eauto.
  - apply end_element_Done in H
      as [(_ & ->)|[(_ & Hinv & ->)|(_ & _ & h & Hfree & ->)]].
    + constructor; cbn; eauto.
    + constructor; cbn; [|discriminate].
      intros b tp Hb E. apply in_app_or in Hb as [Hb|[Hb|[]]]; eauto.
    + constructor; cbn; [|discriminate].
      intros b tp Hb E.
      destruct (g_free_lookup _ _ _ b Hfree) as [E'|E']; [congruence|].
      rewrite E' in E. eauto.
  - apply text_Done in H
      as [->|(b & tp & Hb & Hlive & [(_ & ->)|(_ & ->)])].
    + now constructor.
    + constructor; cbn.
      * intros b' tp' Hb' E.
        assert (b <> b') by (intros <-; exact (Hn _ Hb Hb')).
        rewrite lookup_insert_ne in E by assumption. eauto.
      * intros b' tp' Hb' E Hinv.
        destruct (g_time_val_from_iso8601 text (time tp)) as [ok t] eqn:Eiso.
        destruct ok; cbn in Hinv; [|discriminate].
        assert (b' = b) as -> by congruence.
        rewrite lookup_insert_eq in E. injection E as <-.
        right. exists text, (time tp). split; [exact He | exact Eiso].
    + constructor; cbn.
      * intros b' tp' Hb' E.
        assert (b <> b') by (intros <-; exact (Hn _ Hb Hb')).
        rewrite lookup_insert_ne in E by assumption. eauto.
      * intros b' tp' Hb' E Hinv.
        assert (b' = b) as -> by congruence.
        rewrite lookup_insert_eq in E. injection E as <-.
        cbn. eauto.
Qed.

Lemma timestamps_ok_run document events s s' :
  incl events document ->
  consistent s -> timestamps_ok document s -> run_events events s = Done s' ->
  timestamps_ok document s'.
Proof.
  revert s. induction events as [|e rest IH]; intros s Hin Hs Hts H.
  - now injection H as <-.
  - apply run_events_cons_Done in H as (s1 & H1 & H).
    apply (IH s1).
    + intros x Hx. apply Hin. now right.
    + exact (consistent_step _ _ _ Hs H1).
    + apply (timestamps_ok_step document e s s1); try assumption.
      apply Hin. now left.
    + exact H.
Qed.

(** A block that was released or skipped never enters the track later. *)
Lemma retired_step b e s s' :
  retired b s -> _gpx_parser e s = Done s' -> retired b s'.
Proof.
  intros (Hlt & Hcur & Htr) H.
  destruct e as [n attributes|n|text]; cbn in H.
  - destruct (String.eqb_spec n "trkpt") as [->|Hne].
    + destruct attributes as [|a rest].
      * apply start_trkpt_empty_Done in H as (h & _ & ->).
        repeat split; assumption.
      * apply start_trkpt_Done in H as (h & _ & ->); [|discriminate].
        repeat split; cbn; [lia | intros [= E]; lia | assumption].
    + apply String.eqb_neq in Hne.
      destruct (start_other_Done n attributes s Hne) as (c & E & _).
      rewrite E in H. injection H as <-. repeat split; assumption.
  - apply end_element_Done in H
      as [(_ & ->)|[(_ & _ & ->)|(_ & _ & h & _ & ->)]];
      repeat split; cbn; try assumption; try discriminate.
    intros Hb. apply in_app_or in Hb as [Hb|[Hb|[]]]; [exact (Htr Hb)|congruence].
  - apply text_Done in H as [->|(b' & tp & _ & _ & [(_ & ->)|(_ & ->)])];
      repeat split; cbn; assumption.
Qed.


(** A finished point is not touched by later events, and later events only
    append to the track, never a pointer to that point. *)
Lemma kept_step b tp e s s' :
  kept b tp s -> _gpx_parser e s = Done s' ->
  kept b tp s' /\
  exists added, track (gpx s') = (track (gpx s) ++ added)%list /\ ~ In (Some b) added.
Proof.
  intros (Hlt & Hcur & Hb) H.
  assert (Hnil : forall l : list pointer, l = (l ++ [])%list /\ ~ In (Some b) [])
    by (intros l; now rewrite app_nil_r).
  destruct e as [n attributes|n|text]; cbn in H.
  - destruct (String.eqb_spec n "trkpt") as [->|Hne].
    + destruct attributes as [|a rest].
      * apply start_trkpt_empty_Done in H as (h & Hfree & ->).
        split; [|exists []; apply Hnil].
        repeat split; cbn; try assumption.
        now rewrite (g_free_lookup_ne _ _ _ _ Hfree Hcur).
      * apply start_trkpt_Done in H as (h & Hfree & ->); [|discriminate].
        split; [|exists []; apply Hnil].
        repeat split; cbn; [lia | intros [= E]; lia |].
        rewrite lookup_insert_ne by lia.
        now rewrite (g_free_lookup_ne _ _ _ _ Hfree Hcur).
    + apply String.eqb_neq in Hne.
      destruct (start_other_Done n attributes s Hne) as (c & E & _).
      rewrite E in H. injection H as <-.
      split; [|exists []; apply Hnil]. repeat split; assumption.
  - apply end_element_Done in H
      as [(_ & ->)|[(_ & _ & ->)|(_ & _ & h & Hfree & ->)]].
    + split; [|exists []; apply Hnil]. repeat split; assumption.
    + split; [repeat split; cbn; try assumption; discriminate|].
      exists [current_track_point (gpx s)]. split; [reflexivity|].
      intros [E|[]]. congruence.
    + split; [|exists []; apply Hnil].
      repeat split; cbn; try assumption; try discriminate.
      now rewrite (g_free_lookup_ne _ _ _ _ Hfree Hcur).
  - assert (Hother : forall b' tp', current_track_point (gpx s) = Some b' ->
                       <[b' := tp']> (heap s) !! b = Some tp).
    { intros b' tp' E. rewrite lookup_insert_ne; [assumption|congruence]. }
    apply text_Done in H as [->|(b' & tp' & Hb' & _ & [(_ & ->)|(_ & ->)])];
      (split; [|exists []; apply Hnil]);
      repeat split; cbn; try assumption; eauto.
Qed.

Lemma kept_run b tp events s s' :
  kept b tp s -> run_events events s = Done s' ->
  kept b tp s' /\
  exists added, track (gpx s') = (track (gpx s) ++ added)%list /\ ~ In (Some b) added.
Proof.
  revert s. induction events as [|e rest IH]; intros s Hs H.
  - injection H as <-. split; [assumption|].
    exists []. now rewrite app_nil_r.
  - apply run_events_cons_Done in H as (s1 & H1 & H).
    destruct (kept_step _ _ _ _ _ Hs H1) as (Hs1 & l1 & E1 & Hl1).
    destruct (IH _ Hs1 H) as (Hs' & l2 & E2 & Hl2).
    split; [assumption|]. exists (l1 ++ l2)%list. split.
    + now rewrite E2, E1, <- app_assoc.
    + intros Hin. apply in_app_or in Hin as [Hin|Hin];
        [exact (Hl1 Hin) | exact (Hl2 Hin)].
Qed.

(** ** Events inside a [trkpt] element *)

Lemma text_building text s b tp :
  building b tp s ->
  _gpx_parser_text text s =
  Done (if (current_parser_element (gpx s) =? GPX_PARSER_ELEMENT_TIME)%Z then
          mk_state
            (<[b := set_time (snd (g_time_val_from_iso8601 text (time tp))) tp]>
               (heap s))
            (brk s)
            (set_invalid_track_point
               (if fst (g_time_val_from_iso8601 text (time tp))
                then invalid_track_point (gpx s) else true)
               (gpx s))
        else if (current_parser_element (gpx s) =? GPX_PARSER_ELEMENT_ELE)%Z then
          mk_state (<[b := set_elevation (g_ascii_strtod text) tp]> (heap s))
            (brk s) (gpx s)
        else s).
Proof.
  intros [Hcur Hlive]. unfold _gpx_parser_text.
  destruct s as [h k [tr cur cpe inv]]; cbn in *. subst cur.
  destruct (cpe =? GPX_PARSER_ELEMENT_TIME)%Z.
  - rewrite Hlive. cbn.
    destruct (g_time_val_from_iso8601 text (time tp)) as [ok t].
    cbn. now destruct ok.
  - destruct (cpe =? GPX_PARSER_ELEMENT_ELE)%Z; [|reflexivity].
    rewrite Hlive. reflexivity.
Qed.

Lemma quiet_step e s b tp :
  trkpt_event e = false -> building b tp s ->
  exists s' tp',
    _gpx_parser e s = Done s' /\ body_effect b tp s tp' s' /\
    (opens "time" e = false ->
     current_parser_element (gpx s) <> GPX_PARSER_ELEMENT_TIME ->
     time_untouched tp s tp' s') /\
    (opens "ele" e = false ->
     current_parser_element (gpx s) <> GPX_PARSER_ELEMENT_ELE ->
     elevation_untouched tp tp' s').
Proof.
  intros He [Hcur Hlive].
  assert (Hid : heap s = <[b := tp]> (heap s)) by (now rewrite insert_id).
  destruct e as [n attributes|n|text]; cbn in He |- *.
  - destruct (start_other_Done n attributes s He) as (c & E & Ht & Hl & _).
    exists (mk_state (heap s) (brk s) (set_current_parser_element c (gpx s))), tp.
    split; [exact E|]. unfold body_effect, time_untouched, elevation_untouched.
    cbn. repeat split; auto.
  - unfold _gpx_parser_end_element. rewrite He. cbn.
    eexists _, tp. split; [reflexivity|].
    unfold body_effect, time_untouched, elevation_untouched.
    cbn. repeat split; auto; discriminate.
  - rewrite (text_building text s b tp (conj Hcur Hlive)).
    unfold body_effect, time_untouched, elevation_untouched.
    destruct (Z.eqb_spec (current_parser_element (gpx s)) GPX_PARSER_ELEMENT_TIME)
      as [Et|Et].
    + eexists _, _. split; [reflexivity|]. cbn.
      repeat split; auto; try congruence.
      intros ->. now destruct (fst _).
    + destruct (Z.eqb_spec (current_parser_element (gpx s)) GPX_PARSER_ELEMENT_ELE)
        as [Ee|Ee].
      * eexists _, _. split; [reflexivity|]. cbn.
        repeat split; auto; congruence.
      * exists s, tp. split; [reflexivity|]. repeat split; auto.
Qed.

Lemma quiet_run events : forall s b tp,
  existsb trkpt_event events = false -> building b tp s ->
  exists s' tp',
    run_events events s = Done s' /\ body_effect b tp s tp' s' /\
    (existsb (opens "time") events = false ->
     current_parser_element (gpx s) <> GPX_PARSER_ELEMENT_TIME ->
     time_untouched tp s tp' s') /\
    (existsb (opens "ele") events = false ->
     current_parser_element (gpx s) <> GPX_PARSER_ELEMENT_ELE ->
     elevation_untouched tp tp' s').
Proof.
  induction events as [|e rest IH]; intros s b tp Hq [Hcur Hlive].
  - exists s, tp. split; [reflexivity|].
    unfold body_effect, time_untouched, elevation_untouched.
    rewrite insert_id by exact Hlive. repeat split; auto.
  - cbn in Hq. apply orb_false_iff in Hq as [He Hrest].
    destruct (quiet_step e s b tp He (conj Hcur Hlive))
      as (s1 & tp1 & E1 & (Hh1 & Hk1 & Htr1 & Hc1 & Hlon1 & Hlat1 & Hinv1)
          & Ht1 & Hl1).
    assert (Hb1 : building b tp1 s1).
    { split; [exact Hc1|]. rewrite Hh1. apply lookup_insert_eq. }
    destruct (IH s1 b tp1 Hrest Hb1)
      as (s2 & tp2 & E2 & (Hh2 & Hk2 & Htr2 & Hc2 & Hlon2 & Hlat2 & Hinv2)
          & Ht2 & Hl2).
    exists s2, tp2. split; [cbn; rewrite E1; exact E2|].
    split; [|split].
    + unfold body_effect. rewrite Hh2, Hh1, insert_insert_eq.
      repeat split; auto; congruence.
    + cbn. intros Hno Hcpe. apply orb_false_iff in Hno as [Hno1 Hno2].
      destruct (Ht1 Hno1 Hcpe) as (Hc & Hi & Ht).
      destruct (Ht2 Hno2 Hc) as (Hc' & Hi' & Ht').
      unfold time_untouched. repeat split; congruence.
    + cbn. intros Hno Hcpe. apply orb_false_iff in Hno as [Hno1 Hno2].
      destruct (Hl1 Hno1 Hcpe) as (Hc & He1).
      destruct (Hl2 Hno2 Hc) as (Hc' & He2).
      unfold elevation_untouched. split; congruence.
Qed.

(** A [time] child with one run of text, met while the block [b] is under
    construction: the text is handed to [g_time_val_from_iso8601] together
    with the point's current time, and a failure marks the point invalid. *)
Lemma time_start_text_run attributes text s b tp :
  building b tp s ->
  run_events [StartElement "time" attributes; Text text] s =
  Done (mk_state
          (<[b := set_time (snd (g_time_val_from_iso8601 text (time tp))) tp]>
             (heap s))
          (brk s)
          (mk_gpx (track (gpx s)) (Some b) GPX_PARSER_ELEMENT_TIME
             (if fst (g_time_val_from_iso8601 text (time tp))
              then invalid_track_point (gpx s) else true))).
Proof.
  intros [Hcur Hlive]. cbn [run_events _gpx_parser].
  unfold _gpx_parser_start_element. cbn [String.eqb Ascii.eqb Bool.eqb].
  rewrite Hcur. cbn [obind].
  rewrite (text_building text _ b tp) by (split; [exact Hcur | exact Hlive]).
  cbn. unfold set_invalid_track_point, set_current_parser_element. cbn.
  now rewrite Hcur.
Qed.

Lemma time_element_run attributes text s b tp :
  building b tp s ->
  run_events (time_element attributes text) s =
  Done (mk_state
          (<[b := set_time (snd (g_time_val_from_iso8601 text (time tp))) tp]>
             (heap s))
          (brk s)
          (mk_gpx (track (gpx s)) (Some b) 0
             (if fst (g_time_val_from_iso8601 text (time tp))
              then invalid_track_point (gpx s) else true))).
Proof.
  intros Hb. unfold time_element.
  change [StartElement "time" attributes; Text text; EndElement "time"]
    with ([StartElement "time" attributes; Text text] ++ [EndElement "time"])%list.
  rewrite run_events_app, (time_start_text_run _ _ _ _ _ Hb). reflexivity.
Qed.

(** Closing the [trkpt] of a point that is not marked invalid appends it;
    nothing that follows touches it or appends it again. *)
Lemma end_trkpt_valid b tp s post final :
  consistent s -> building b tp s ->
  invalid_track_point (gpx s) = false ->
  run_events (EndElement "trkpt" :: post) s = Done final ->
  exists added,
    track (gpx final) = (track (gpx s) ++ Some b :: added)%list /\
    ~ In (Some b) (track (gpx s)) /\ ~ In (Some b) added /\
    heap final !! b = Some tp.
Proof.
  intros Hs [Hcur Hlive] Hinv H.
  apply run_events_cons_Done in H as (s1 & H1 & H).
  cbn [_gpx_parser] in H1.
  apply end_element_Done in H1
    as [(Hn & _)|[(_ & _ & ->)|(_ & Hinv' & _)]];
    [discriminate Hn | | congruence].
  rewrite Hcur in H.
  assert (Hk : kept b tp
    (mk_state (heap s) (brk s) (mk_gpx (track (gpx s) ++ [Some b]) NULL 0 false))).
  { repeat split; cbn; [|discriminate|exact Hlive].
    exact (current_below s Hs b Hcur). }
  destruct (kept_run _ _ _ _ _ Hk H) as ((_ & _ & Hfinal) & added & E & Hadded).
  exists added. cbn in E. rewrite <- app_assoc in E.
  repeat split; try assumption.
  exact (current_not_in_track s Hs b Hcur).
Qed.


(** The state in which the content of a freshly opened [trkpt] with
    attributes is read. *)
Lemma start_trkpt_building attributes s s1 :
  attributes <> [] ->
  _gpx_parser_start_element "trkpt" attributes s = Done s1 ->
  building (brk s)
    (scan_attributes attributes
       (set_latitude NAN (set_longitude NAN zero_track_point))) s1 /\
  track (gpx s1) = track (gpx s) /\
  brk s1 = Pos.succ (brk s) /\
  current_parser_element (gpx s1) = GPX_PARSER_ELEMENT_TRKPT /\
  invalid_track_point (gpx s1) = false.
Proof.
  intros Hne H. apply start_trkpt_Done in H as (h & _ & ->); [|exact Hne].
  repeat split. cbn. apply lookup_insert_eq.
Qed.

(** * Claims about parsed documents *)

Lemma attribute_value_nonempty name attributes v :
  attribute_value name attributes = Some v -> attributes <> [].
Proof. now destruct attributes. Qed.

(** C9. A [trkpt] element that carries [lon] and [lat] attributes, contains
    no nested [trkpt] and exactly one [time] child whose text
    [g_time_val_from_iso8601] accepts, puts exactly one point into the
    track of the parsed document: a block [b] that occurs once in the
    track, right after the entries of the elements before it, and holds the
    longitude and latitude read from the attributes and the parsed time;
    its elevation is 0 when the element has no [ele] child. *)
Theorem trkpt_with_time_is_stored
    (pre post body1 body2 : list markup_event)
    (attributes time_attributes : list (string * string))
    (text vlon vlat : string) (t : GTimeVal) (final : state) :
  attribute_value "lon" attributes = Some vlon ->
  attribute_value "lat" attributes = Some vlat ->
  existsb trkpt_event (body1 ++ body2) = false ->
  existsb (opens "time") (body1 ++ body2) = false ->
  g_time_val_from_iso8601 text (mkGTimeVal 0 0) = (true, t) ->
  run_events
    (pre ++
     trkpt_element attributes
       (body1 ++ time_element time_attributes text ++ body2) ++
     post) new_context = Done final ->
  exists (s0 : state) (b : block) (tp : _gpx_track_point_t)
         (later : list pointer),
    run_events pre new_context = Done s0 /\
    track (gpx final) = (track (gpx s0) ++ Some b :: later)%list /\
    ~ In (Some b) (track (gpx s0)) /\ ~ In (Some b) later /\
    heap final !! b = Some tp /\
    longitude tp = g_ascii_strtod vlon /\
    latitude tp = g_ascii_strtod vlat /\
    time tp = t /\
    (existsb (opens "ele") (body1 ++ body2) = false ->
     elevation tp = zero_double).
Proof.
  intros Hlon Hlat Hq Hnt Hiso H.
  rewrite existsb_app in Hq, Hnt.
  apply orb_false_iff in Hq as [Hq1 Hq2].
  apply orb_false_iff in Hnt as [Hnt1 Hnt2].
  apply run_events_app_Done in H as (s0 & Hpre & H).
  pose proof (consistent_run _ _ _ consistent_new_context Hpre) as Hs0.
  unfold trkpt_element in H. rewrite <- app_comm_cons in H.
  apply run_events_cons_Done in H as (s1 & Hstart & H).
  pose proof (consistent_step _ _ _ Hs0 Hstart) as Hs1.
  cbn [_gpx_parser] in Hstart.
  apply start_trkpt_building in Hstart
    as (Hb1 & Htr1 & Hk1 & Hcpe1 & Hinv1);
    [|exact (attribute_value_nonempty _ _ _ Hlon)].
  set (tp1 := scan_attributes attributes
                (set_latitude NAN (set_longitude NAN zero_track_point))) in *.
  rewrite <- !app_assoc in H.
  (* the content before the time child *)
  destruct (quiet_run body1 s1 (brk s0) tp1 Hq1 Hb1)
    as (s2 & tp2 & E2 & (Hh2 & Hk2 & Htr2 & Hc2 & Hlon2 & Hlat2 & _) & Ht2 & Hl2).
  destruct (Ht2 Hnt1) as (Hcpe2 & Hinv2 & Htime2);
    [rewrite Hcpe1; discriminate|].
  rewrite run_events_app, E2 in H. cbn [obind] in H.
  assert (Hb2 : building (brk s0) tp2 s2).
  { split; [exact Hc2|]. rewrite Hh2. apply lookup_insert_eq. }
  (* the time child *)
  rewrite run_events_app, (time_element_run _ _ _ _ _ Hb2) in H.
  cbn [obind] in H.
  assert (Hzero : time tp2 = mkGTimeVal 0 0).
  { rewrite Htime2. unfold tp1. now rewrite scan_attributes_time. }
  rewrite Hzero, Hiso in H. cbn [fst snd] in H.
  set (s3 := mk_state _ _ _) in H.
  assert (Hb3 : building (brk s0) (set_time t tp2) s3).
  { split; [reflexivity|]. cbn. apply lookup_insert_eq. }
  (* the content after the time child *)
  destruct (quiet_run body2 s3 (brk s0) (set_time t tp2) Hq2 Hb3)
    as (s4 & tp4 & E4 & (Hh4 & Hk4 & Htr4 & Hc4 & Hlon4 & Hlat4 & _) & Ht4 & Hl4).
  destruct (Ht4 Hnt2) as (Hcpe4 & Hinv4 & Htime4); [cbn; discriminate|].
  rewrite run_events_app, E4 in H. cbn [obind] in H.
  assert (Hb4 : building (brk s0) tp4 s4).
  { split; [exact Hc4|]. rewrite Hh4. apply lookup_insert_eq. }
  assert (Hs4 : consistent s4).
  { apply (consistent_run body2 s3); [|exact E4].
    apply (consistent_run (time_element time_attributes text) s2).
    - apply (consistent_run body1 s1); assumption.
    - rewrite (time_element_run _ _ _ _ _ Hb2), Hzero, Hiso. reflexivity. }
  (* the end of the element, and what follows it *)
  assert (Hvalid : invalid_track_point (gpx s4) = false)
    by (rewrite Hinv4; cbn; rewrite Hinv2; exact Hinv1).
  destruct (end_trkpt_valid _ _ _ _ _ Hs4 Hb4 Hvalid H)
    as (later & Etrack & Hbefore & Hlater & Hfinal).
  exists s0, (brk s0), tp4, later.
  assert (Etr : track (gpx s4) = track (gpx s0))
    by (rewrite Htr4; cbn; rewrite Htr2; exact Htr1).
  rewrite Etr in Etrack, Hbefore.
  repeat split; try assumption.
  - rewrite Hlon4. cbn. rewrite Hlon2. unfold tp1.
    now rewrite scan_attributes_longitude, Hlon.
  - rewrite Hlat4. cbn. rewrite Hlat2. unfold tp1.
    now rewrite scan_attributes_latitude, Hlat.
  - intros Hne. rewrite existsb_app in Hne.
    apply orb_false_iff in Hne as [Hne1 Hne2].
    destruct (Hl2 Hne1) as (Hc & He2); [rewrite Hcpe1; discriminate|].
    destruct (Hl4 Hne2) as (_ & He4); [cbn; discriminate|].
    rewrite He4. cbn. rewrite He2. unfold tp1.
    now rewrite scan_attributes_elevation.
Qed.


(** C2, as the code has it.  In every parsed document, each live point of
    the track carries a timestamp that is either the zero it was
    initialised with or the result of a successful call of
    [g_time_val_from_iso8601] on a text of the document; and a [trkpt]
    element with [lon] and [lat] attributes, no nested [trkpt] and no
    [time] element inside it is appended to the track, with those
    coordinates and the timestamp zero. *)
Theorem stored_timestamp_default_or_parsed :
  (forall (events : list markup_event) (final : state)
          (b : block) (tp : _gpx_track_point_t),
     run_events events new_context = Done final ->
     In (Some b) (track (gpx final)) -> heap final !! b = Some tp ->
     default_or_parsed events (time tp)) /\
  (forall (pre post body : list markup_event)
          (attributes : list (string * string)) (vlon vlat : string)
          (final : state),
     attribute_value "lon" attributes = Some vlon ->
     attribute_value "lat" attributes = Some vlat ->
     existsb trkpt_event body = false ->
     existsb (opens "time") body = false ->
     run_events (pre ++ trkpt_element attributes body ++ post) new_context
       = Done final ->
     exists (s0 : state) (b : block) (tp : _gpx_track_point_t)
            (later : list pointer),
       run_events pre new_context = Done s0 /\
       track (gpx final) = (track (gpx s0) ++ Some b :: later)%list /\
       heap final !! b = Some tp /\
       longitude tp = g_ascii_strtod vlon /\
       latitude tp = g_ascii_strtod vlat /\
       time tp = mkGTimeVal 0 0).
Proof.
  split.
  - intros events final b tp H Hin Hlive.
    exact (track_times events final
             (timestamps_ok_run events events _ _ (incl_refl events)
                consistent_new_context (timestamps_ok_new_context events) H)
             b tp Hin Hlive).
  - intros pre post body attributes vlon vlat final Hlon Hlat Hq Hnt H.
    apply run_events_app_Done in H as (s0 & Hpre & H).
    pose proof (consistent_run _ _ _ consistent_new_context Hpre) as Hs0.
    unfold trkpt_element in H. rewrite <- app_comm_cons in H.
    apply run_events_cons_Done in H as (s1 & Hstart & H).
    pose proof (consistent_step _ _ _ Hs0 Hstart) as Hs1.
    cbn [_gpx_parser] in Hstart.
    apply start_trkpt_building in Hstart
      as (Hb1 & Htr1 & Hk1 & Hcpe1 & Hinv1);
      [|exact (attribute_value_nonempty _ _ _ Hlon)].
    set (tp1 := scan_attributes attributes
                  (set_latitude NAN (set_longitude NAN zero_track_point))) in *.
    rewrite <- !app_assoc in H.
    destruct (quiet_run body s1 (brk s0) tp1 Hq Hb1)
      as (s2 & tp2 & E2 & (Hh2 & Hk2 & Htr2 & Hc2 & Hlon2 & Hlat2 & _) & Ht2 & _).
    destruct (Ht2 Hnt) as (_ & Hinv2 & Htime2); [rewrite Hcpe1; discriminate|].
    rewrite run_events_app, E2 in H. cbn [obind] in H.
    assert (Hb2 : building (brk s0) tp2 s2).
    { split; [exact Hc2|]. rewrite Hh2. apply lookup_insert_eq. }
    assert (Hs2 : consistent s2) by (apply (consistent_run body s1); assumption).
    assert (Hvalid : invalid_track_point (gpx s2) = false) by congruence.
    destruct (end_trkpt_valid _ _ _ _ _ Hs2 Hb2 Hvalid H)
      as (later & Etrack & _ & _ & Hfinal).
    exists s0, (brk s0), tp2, later.
    rewrite Htr2, Htr1 in Etrack.
    repeat split; try assumption.
    + rewrite Hlon2. unfold tp1. now rewrite scan_attributes_longitude, Hlon.
    + rewrite Hlat2. unfold tp1. now rewrite scan_attributes_latitude, Hlat.
    + rewrite Htime2. unfold tp1. now rewrite scan_attributes_time.
Qed.

(** * Where the callbacks depart from what they are meant to do *)

(** C1, at the document [<trkpt lat='48.25'></trkpt>]: the element has an
    attribute but no [lon]; after its start the point is not marked invalid
    (the comparison with [NAN] is false), and the finished track holds the
    point, whose longitude is [NAN]. *)
Theorem trkpt_without_lon_is_stored :
  (exists s1,
     _gpx_parser_start_element "trkpt" [("lat", "48.25")] new_context = Done s1 /\
     invalid_track_point (gpx s1) = false) /\
  (exists s,
     run_events trkpt_without_lon new_context = Done s /\
     track (gpx s) = [Some 1%positive] /\
     heap s !! 1%positive =
       Some (mk_track_point NAN (g_ascii_strtod "48.25") zero_double
               (mkGTimeVal 0 0))).
Proof.
  split.
  - cbn. rewrite !double_eq_NAN. cbn. eexists. split; reflexivity.
  - cbn. rewrite !double_eq_NAN. cbn. eexists.
    split; [reflexivity|]. split; [reflexivity|].
    cbn. now rewrite lookup_insert_eq.
Qed.

(** C3, at the document [<trkpt></trkpt>]: no point is started, yet the end
    of the element appends the (NULL) current pointer, so the track has one
    entry more.  The same happens after any events that leave no point
    under construction. *)
Theorem trkpt_without_attributes_appends_null :
  run_events trkpt_without_attributes new_context =
    Done (mk_state ∅ 1%positive (mk_gpx [NULL] NULL 0 false)) /\
  forall s : state,
    current_track_point (gpx s) = NULL ->
    run_events trkpt_without_attributes s =
      Done (mk_state (heap s) (brk s)
              (mk_gpx (track (gpx s) ++ [NULL]) NULL 0 false)).
Proof.
  split; [reflexivity|].
  intros [h k [tr cur cpe inv]]. cbn. intros ->. reflexivity.
Qed.

(** A [trkpt] opened inside a [trkpt] that has no attributes releases the
    same block a second time. *)
Lemma nested_trkpt_undefined :
  run_events nested_trkpt new_context = Undefined.
Proof.
  cbn. rewrite !double_eq_NAN. cbn.
  rewrite lookup_insert_eq. cbn. now rewrite lookup_delete_eq.
Qed.


(** ** Documents without nested [trkpt] elements *)

Lemma unnested_step inside inside' e s :
  nesting inside e = Some inside' -> no_dangling inside s ->
  exists s', _gpx_parser e s = Done s' /\ no_dangling inside' s'.
Proof.
  unfold no_dangling. intros Hn Hs.
  destruct e as [n attributes|n|text]; cbn in Hn |- *.
  - destruct (String.eqb_spec n "trkpt") as [->|Hne].
    + destruct inside; [discriminate|]. injection Hn as <-.
      destruct (current_track_point (gpx s)) as [b|] eqn:Hcur;
        [destruct Hs; discriminate|].
      unfold _gpx_parser_start_element. cbn [String.eqb Ascii.eqb Bool.eqb].
      rewrite Hcur. cbn [obind].
      destruct attributes as [|a rest].
      * eexists. split; [reflexivity|]. cbn. now rewrite Hcur.
      * cbn [g_malloc0]. rewrite !double_eq_NAN. cbn [orb].
        eexists. split; [reflexivity|]. cbn.
        split; [reflexivity|]. rewrite lookup_insert_eq. eauto.
    + injection Hn as <-. apply String.eqb_neq in Hne.
      destruct (start_other_Done n attributes s Hne) as (c & E & _).
      eexists. split; [exact E|]. exact Hs.
  - unfold _gpx_parser_end_element.
    destruct (n =? "trkpt").
    + injection Hn as <-.
      destruct (invalid_track_point (gpx s)); cbn.
      * destruct (current_track_point (gpx s)) as [b|]; cbn.
        -- destruct Hs as (_ & tp & ->). cbn. eexists. split; reflexivity.
        -- eexists. split; reflexivity.
      * eexists. split; reflexivity.
    + injection Hn as <-. cbn. eexists. split; [reflexivity|]. exact Hs.
  - injection Hn as <-.
    destruct (current_track_point (gpx s)) as [b|] eqn:Hcur.
    + destruct Hs as (Hin & tp & Hlive).
      rewrite (text_building text s b tp (conj Hcur Hlive)).
      eexists. split; [reflexivity|].
      destruct (_ =? _)%Z; [|destruct (_ =? _)%Z]; cbn; rewrite ?Hcur;
        (split; [exact Hin|]); rewrite ?lookup_insert_eq; eauto.
    + unfold _gpx_parser_text. rewrite Hcur.
      eexists. split; [reflexivity|]. now rewrite Hcur.
Qed.



(** * Further properties of the parser *)

(** ** When [dt_gpx_new] returns a context *)

(** [dt_gpx_new] returns a context only when the file could be mapped, its
    contents are not NULL, its length (as a [gint]) is at least 10, the
    tokeniser reported no error, and every callback was defined; the
    context is then the one the callbacks built from a zeroed context. *)
Theorem dt_gpx_new_context_inversion (filename : string) (s : state) :
  dt_gpx_new filename = Done (Some s) ->
  exists (gpxmf : GMappedFile) (gpxmf_content : string)
         (events : list markup_event),
    g_mapped_file_new filename = Some gpxmf /\
    mapped_contents gpxmf = Some gpxmf_content /\
    (10 <= to_gint (mapped_length gpxmf))%Z /\
    g_markup_parse_context_parse gpxmf_content (to_gint (mapped_length gpxmf))
      = (events, false) /\
    run_events events new_context = Done s.
Proof using Type.
  unfold dt_gpx_new.
  destruct (g_mapped_file_new filename) as [gpxmf|]; [|discriminate].
  destruct (mapped_contents gpxmf) as [gpxmf_content|] eqn:Hc; [|discriminate].
  destruct (Z.ltb_spec (to_gint (mapped_length gpxmf)) 10) as [|Hlen];
    [discriminate|].
  destruct (g_markup_parse_context_parse gpxmf_content
              (to_gint (mapped_length gpxmf))) as [events err] eqn:Htok.
  destruct (run_events events new_context) as [s'|] eqn:Hrun; cbn;
    [|discriminate].
  destruct err; [discriminate|]. intros [= <-].
  exists gpxmf, gpxmf_content, events. repeat split; assumption.
Qed.

(** ** Documents without track points *)

(** While no point is under construction, an event that neither opens nor
    closes a [trkpt] changes at most the element classification. *)
Lemma idle_step e s :
  trkpt_event e = false -> current_track_point (gpx s) = NULL ->
  exists c,
    _gpx_parser e s =
      Done (mk_state (heap s) (brk s) (set_current_parser_element c (gpx s))) /\
    (current_parser_element (gpx s) = 0%Z -> c = 0%Z).
Proof.
  intros He Hcur. destruct s as [h k [tr cur cpe inv]]. cbn in Hcur. subst cur.
  destruct e as [n attributes|n|text]; cbn in He |- *.
  - unfold _gpx_parser_start_element. rewrite He. cbn.
    exists cpe. split; [|auto].
    destruct (n =? "time"); [reflexivity|]. destruct (n =? "ele"); reflexivity.
  - unfold _gpx_parser_end_element. rewrite He. cbn.
    exists 0%Z. split; [reflexivity | auto].
  - exists cpe. split; [reflexivity | auto].
Qed.

Lemma idle_run events : forall h k tr inv,
  existsb trkpt_event events = false ->
  run_events events (mk_state h k (mk_gpx tr NULL 0 inv)) =
  Done (mk_state h k (mk_gpx tr NULL 0 inv)).
Proof.
  induction events as [|e rest IH]; intros h k tr inv Hq; [reflexivity|].
  cbn in Hq. apply orb_false_iff in Hq as [He Hrest].
  destruct (idle_step e (mk_state h k (mk_gpx tr NULL 0 inv)) He eq_refl)
    as (c & E & Hc).
  cbn [run_events]. rewrite E. cbn [obind]. rewrite (Hc eq_refl).
  apply (IH h k tr inv Hrest).
Qed.

(** A document in which no [trkpt] element occurs leaves the context as
    it was created: nothing is allocated and the track is empty, whatever
    other elements ([time] and [ele] included) and text it holds. *)
Theorem no_trkpt_no_track (events : list markup_event) :
  existsb trkpt_event events = false ->
  run_events events new_context = Done new_context.
Proof. apply idle_run. Qed.

(** ** The track only grows, at the ends of [trkpt] elements *)

Lemma track_grows_step e s s' :
  _gpx_parser e s = Done s' ->
  exists added,
    track (gpx s') = (track (gpx s) ++ added)%list /\
    (length added <= if closes_trkpt e then 1 else 0)%nat.
Proof.
  intros H.
  assert (Hnil : forall (l : list pointer) (n : nat),
            l = (l ++ [])%list /\ (length (@nil pointer) <= n)%nat)
    by (intros l n; rewrite app_nil_r; cbn; split; [reflexivity | lia]).
  destruct e as [n attributes|n|text]; cbn in H; cbn [closes_trkpt].
  - exists []. destruct (String.eqb_spec n "trkpt") as [->|Hne].
    + destruct attributes as [|a rest].
      * apply start_trkpt_empty_Done in H as (h & _ & ->). apply Hnil.
      * apply start_trkpt_Done in H as (h & _ & ->); [|discriminate].
        apply Hnil.
    + apply String.eqb_neq in Hne.
      destruct (start_other_Done n attributes s Hne) as (c & E & _).
      rewrite E in H. injection H as <-. apply Hnil.
  - apply end_element_Done in H
      as [(_ & ->)|[(-> & _ & ->)|(_ & _ & h & _ & ->)]].
    + exists []. apply Hnil.
    + exists [current_track_point (gpx s)]. split; [reflexivity | cbn; lia].
    + exists []. apply Hnil.
  - exists [].
    apply text_Done in H as [->|(b & tp & _ & _ & [(_ & ->)|(_ & ->)])];
      apply Hnil.
Qed.

(** Whatever the events, the callbacks never remove or reorder entries of
    the track: the track after a run is the track before it followed by
    the entries added, and at most one entry is added per end of a [trkpt]
    element. *)
Theorem track_only_grows (events : list markup_event) (s s' : state) :
  run_events events s = Done s' ->
  exists added,
    track (gpx s') = (track (gpx s) ++ added)%list /\
    (length added <= length (List.filter closes_trkpt events))%nat.
Proof.
  revert s. induction events as [|e rest IH]; intros s H.
  - injection H as <-. exists []. rewrite app_nil_r. split; [reflexivity|].
    cbn. lia.
  - apply run_events_cons_Done in H as (s1 & H1 & H).
    destruct (track_grows_step _ _ _ H1) as (a1 & E1 & L1).
    destruct (IH _ H) as (a2 & E2 & L2).
    exists (a1 ++ a2)%list. split.
    + now rewrite E2, E1, <- app_assoc.
    + rewrite length_app. cbn [List.filter].
      destruct (closes_trkpt e); cbn [length]; lia.
Qed.

(** ** The coordinates of a new point *)

(** Opening a [trkpt] that has attributes starts a point in a fresh block:
    its longitude and latitude are [g_ascii_strtod] of the value of the
    last [lon] and the last [lat] attribute, and [NAN] where there is none;
    its elevation and time are zero; other attributes are ignored. *)
Theorem start_trkpt_coordinates (attributes : list (string * string))
    (s s' : state) :
  attributes <> [] ->
  _gpx_parser_start_element "trkpt" attributes s = Done s' ->
  exists tp,
    building (brk s) tp s' /\
    longitude tp = match attribute_value "lon" attributes with
                   | Some v => g_ascii_strtod v
                   | None => NAN
                   end /\
    latitude tp = match attribute_value "lat" attributes with
                  | Some v => g_ascii_strtod v
                  | None => NAN
                  end /\
    elevation tp = zero_double /\
    time tp = mkGTimeVal 0 0.
Proof.
  intros Hne H.
  apply start_trkpt_building in H as (Hb & _); [|exact Hne].
  eexists. split; [exact Hb|].
  rewrite scan_attributes_longitude, scan_attributes_latitude,
    scan_attributes_elevation, scan_attributes_time.
  repeat split.
Qed.

(** ** A [trkpt] opened before the previous one ended *)

Lemma released_step b e s s' :
  released b s -> _gpx_parser e s = Done s' -> released b s'.
Proof.
  intros [Hret Hnone] H. split; [exact (retired_step _ _ _ _ Hret H)|].
  destruct Hret as (Hlt & Hcur & _).
  destruct e as [n attributes|n|text]; cbn in H.
  - destruct (String.eqb_spec n "trkpt") as [->|Hne].
    + destruct attributes as [|a rest].
      * apply start_trkpt_empty_Done in H as (h & Hfree & ->). cbn.
        destruct (g_free_lookup _ _ _ b Hfree) as [E|E]; congruence.
      * apply start_trkpt_Done in H as (h & Hfree & ->); [|discriminate].
        cbn. rewrite lookup_insert_ne by lia.
        destruct (g_free_lookup _ _ _ b Hfree) as [E|E]; congruence.
    + apply String.eqb_neq in Hne.
      destruct (start_other_Done n attributes s Hne) as (c & E & _).
      rewrite E in H. injection H as <-. exact Hnone.
  - apply end_element_Done in H
      as [(_ & ->)|[(_ & _ & ->)|(_ & _ & h & Hfree & ->)]]; cbn;
      try assumption.
    destruct (g_free_lookup _ _ _ b Hfree) as [E|E]; congruence.
  - apply text_Done in H as [->|(b' & tp & Hb' & _ & [(_ & ->)|(_ & ->)])];
      cbn; try assumption;
      (rewrite lookup_insert_ne; [assumption | congruence]).
Qed.

Lemma released_run b events s s' :
  released b s -> run_events events s = Done s' -> released b s'.
Proof.
  revert s. induction events as [|e rest IH]; intros s Hs H.
  - now injection H as <-.
  - apply run_events_cons_Done in H as (s1 & H1 & H).
    eauto using released_step.
Qed.

(** When a [trkpt] with attributes is opened while the point of an earlier
    [trkpt] (with attributes, not yet closed) is under construction, the
    earlier point is discarded: its block is released and never reaches
    the track of the parsed document. *)
Theorem reopened_trkpt_discards_previous
    (pre body post : list markup_event)
    (attributes1 attributes2 : list (string * string)) (final : state) :
  attributes1 <> [] -> attributes2 <> [] ->
  existsb trkpt_event body = false ->
  run_events
    (pre ++ StartElement "trkpt" attributes1 :: body ++
     StartElement "trkpt" attributes2 :: post) new_context = Done final ->
  exists s0,
    run_events pre new_context = Done s0 /\
    heap final !! brk s0 = None /\
    ~ In (Some (brk s0)) (track (gpx final)).
Proof.
  intros Ha1 Ha2 Hq H.
  apply run_events_app_Done in H as (s0 & Hpre & H).
  pose proof (consistent_run _ _ _ consistent_new_context Hpre) as Hs0.
  apply run_events_cons_Done in H as (s1 & Hstart & H).
  cbn [_gpx_parser] in Hstart.
  apply start_trkpt_building in Hstart as (Hb1 & Htr1 & Hk1 & _ & _);
    [|exact Ha1].
  destruct (quiet_run body s1 (brk s0) _ Hq Hb1)
    as (s2 & tp2 & E2 & (Hh2 & Hk2 & Htr2 & Hc2 & _) & _).
  rewrite run_events_app, E2 in H. cbn [obind] in H.
  apply run_events_cons_Done in H as (s3 & Hstart2 & H).
  cbn [_gpx_parser] in Hstart2.
  apply start_trkpt_Done in Hstart2 as (h & Hfree & ->); [|exact Ha2].
  rewrite Hc2 in Hfree.
  apply g_free_Done in Hfree as [[Hnone _]|(b & [= <-] & _ & ->)];
    [discriminate|].
  exists s0. split; [exact Hpre|].
  assert (Hrel : released (brk s0)
            (mk_state
               (<[brk s2 := scan_attributes attributes2
                    (set_latitude NAN (set_longitude NAN zero_track_point))]>
                  (delete (brk s0) (heap s2)))
               (Pos.succ (brk s2))
               (mk_gpx (track (gpx s2)) (Some (brk s2))
                  GPX_PARSER_ELEMENT_TRKPT false))).
  { repeat split; cbn.
    - rewrite Hk2, Hk1. lia.
    - rewrite Hk2, Hk1. intros [= E]. lia.
    - rewrite Htr2, Htr1. intros Hin. apply (track_below s0 Hs0) in Hin. lia.
    - rewrite lookup_insert_ne by (rewrite Hk2, Hk1; lia).
      apply lookup_delete_eq. }
  destruct (released_run _ _ _ _ Hrel H) as ((_ & _ & Hnot) & Hnone).
  split; assumption.
Qed.

(** ** Regular documents *)

Lemma trkpt_events_run (src : trkpt_source) h k tr cpe inv :
  h !! k = None ->
  run_events (trkpt_events src) (mk_state h k (mk_gpx tr NULL cpe inv)) =
  Done (if source_valid src
        then mk_state (<[k := source_point src]> h) (Pos.succ k)
               (mk_gpx (tr ++ [Some k]) NULL 0 false)
        else mk_state h (Pos.succ k) (mk_gpx tr NULL 0 true)).
Proof.
  intros Hfresh. destruct src as [vlat vlon [e|] [t|] [sp|]];
    unfold source_valid, source_point; cbn.
  all: rewrite ?double_eq_NAN; cbn.
  all: repeat first [ rewrite lookup_insert_eq | rewrite insert_insert_eq
                    | progress cbn ].
  all: try (destruct (g_time_val_from_iso8601 t _) as [[|] tv]; cbn).
  all: unfold _gpx_parser_end_element; cbn.
  all: repeat first [ rewrite lookup_insert_eq | rewrite insert_insert_eq
                    | rewrite delete_insert_id by exact Hfresh
                    | progress cbn ].
  all: reflexivity.
Qed.

Lemma track_points_app h (l1 l2 : list pointer) :
  track_points h (l1 ++ l2) =
  match track_points h l1, track_points h l2 with
  | Some tps1, Some tps2 => Some (tps1 ++ tps2)%list
  | _, _ => None
  end.
Proof.
  induction l1 as [|item next IH]; cbn [track_points app].
  - now destruct (track_points h l2).
  - destruct (load h item) as [tp|]; [|reflexivity].
    rewrite IH. destruct (track_points h next); [|reflexivity].
    now destruct (track_points h l2).
Qed.

Lemma track_points_insert_fresh h (k : block) tp (items : list pointer) :
  (forall b, In (Some b) items -> (b < k)%positive) ->
  track_points (<[k := tp]> h) items = track_points h items.
Proof.
  induction items as [|item next IH]; intros Hlt; [reflexivity|].
  cbn [track_points]. rewrite IH by (intros b Hb; apply Hlt; now right).
  destruct item as [b|]; [|reflexivity].
  cbn [load]. rewrite lookup_insert_ne; [reflexivity|].
  specialize (Hlt b (or_introl eq_refl)). lia.
Qed.

Lemma regular_run (items : list document_item) :
  forall h k tr cpe inv tps,
  forallb regular_item items = true ->
  (forall b, is_Some (h !! b) -> (b < k)%positive) ->
  (forall b, In (Some b) tr -> (b < k)%positive) ->
  track_points h tr = Some tps ->
  exists s,
    run_events (document_events items) (mk_state h k (mk_gpx tr NULL cpe inv))
      = Done s /\
    current_track_point (gpx s) = NULL /\
    track_points (heap s) (track (gpx s))
      = Some (tps ++ document_points items)%list.
Proof.
  induction items as [|[src|e] rest IH];
    intros h k tr cpe inv tps Hreg Hh Htr Hpts.
  - eexists. split; [reflexivity|]. cbn. now rewrite app_nil_r.
  - cbn in Hreg.
    assert (Hfresh : h !! k = None).
    { destruct (h !! k) eqn:E; [|reflexivity].
      assert ((k < k)%positive) by (apply Hh; rewrite E; eauto). lia. }
    unfold document_events. cbn [List.map List.concat item_events].
    rewrite run_events_app, (trkpt_events_run src h k tr cpe inv Hfresh).
    cbn [obind document_points]. destruct (source_valid src).
    + destruct (IH (<[k := source_point src]> h) (Pos.succ k)
                  (tr ++ [Some k])%list 0%Z false
                  (tps ++ [source_point src])%list Hreg) as (s & E & Hc & Hp).
      * intros b Hb. destruct (decide (k = b)) as [<-|Hne]; [lia|].
        rewrite lookup_insert_ne in Hb by exact Hne. apply Hh in Hb. lia.
      * intros b Hb. apply in_app_or in Hb as [Hb|[[= <-]|[]]]; [|lia].
        apply Htr in Hb. lia.
      * rewrite track_points_app, (track_points_insert_fresh _ _ _ _ Htr), Hpts.
        cbn. now rewrite lookup_insert_eq.
      * exists s. split; [exact E|]. split; [exact Hc|].
        now rewrite Hp, <- app_assoc.
    + apply (IH h (Pos.succ k) tr 0%Z true tps Hreg); try assumption.
      * intros b Hb. apply Hh in Hb. lia.
      * intros b Hb. apply Htr in Hb. lia.
  - cbn in Hreg. apply andb_true_iff in Hreg as [He Hreg].
    apply negb_true_iff in He.
    destruct (idle_step e (mk_state h k (mk_gpx tr NULL cpe inv)) He eq_refl)
      as (c & E & _).
    unfold document_events. cbn [List.map List.concat item_events].
    cbn [app run_events]. rewrite E. cbn [obind].
    apply (IH h k tr c inv tps Hreg Hh Htr Hpts).
Qed.

(** A document made of regular track points, with anything that neither
    opens nor closes a [trkpt] between them, is read without undefined
    behaviour; no point is left under construction; and the track holds,
    in document order, exactly the points whose [time] text (if any) was
    accepted, each with the longitude, latitude, elevation and time its
    element gives (elevation and time zero where the child is missing). *)
Theorem regular_document_track (items : list document_item) :
  forallb regular_item items = true ->
  exists s,
    run_events (document_events items) new_context = Done s /\
    current_track_point (gpx s) = NULL /\
    track_points (heap s) (track (gpx s)) = Some (document_points items).
Proof.
  intros Hreg.
  apply (regular_run items ∅ 1%positive [] 0%Z false [] Hreg).
  - intros b [tp Hb]. now rewrite lookup_empty in Hb.
  - intros b [].
  - reflexivity.
Qed.

(** ** Releasing the track *)

Lemma In_blocks_of (b : block) (items : list pointer) :
  In b (blocks_of items) <-> In (Some b) items.
Proof.
  induction items as [|[b'|] next IH]; cbn; [tauto| |].
  - rewrite IH. split; intros [E|Hin]; auto; left; congruence.
  - rewrite IH. split; [auto|]. intros [E|Hin]; [discriminate|assumption].
Qed.

Lemma blocks_of_app (l1 l2 : list pointer) :
  blocks_of (l1 ++ l2) = (blocks_of l1 ++ blocks_of l2)%list.
Proof.
  induction l1 as [|[b|] next IH]; cbn; [reflexivity| |assumption].
  now rewrite IH.
Qed.

(** Releasing the data of a list whose nodes point to distinct live blocks
    is defined and removes exactly those blocks. *)
Lemma g_list_foreach_g_free_distinct (items : list pointer) :
  forall h,
  NoDup (blocks_of items) ->
  (forall b, In b (blocks_of items) -> is_Some (h !! b)) ->
  exists h',
    g_list_foreach_g_free items h = Done h' /\
    (forall b, In b (blocks_of items) -> h' !! b = None) /\
    (forall b, ~ In b (blocks_of items) -> h' !! b = h !! b).
Proof.
  induction items as [|[b|] next IH]; intros h Hnd Hlive.
  - exists h. split; [reflexivity|].
    split; [intros b [] | intros; reflexivity].
  - cbn [blocks_of] in Hnd, Hlive. apply NoDup_cons in Hnd as [Hnotin Hnd].
    destruct (Hlive b (or_introl eq_refl)) as [tp Hb].
    destruct (IH (delete b h) Hnd) as (h' & E & Hin & Hout).
    { intros b' Hb'. rewrite lookup_delete_ne; [apply Hlive; now right|].
      intros <-. apply Hnotin. now apply list_elem_of_In. }
    exists h'. cbn [g_list_foreach_g_free g_free]. rewrite Hb. cbn [obind].
    split; [exact E|]. cbn [blocks_of]. split.
    + intros b' [<-|Hb']; [|auto].
      rewrite Hout by (intros Hc; apply Hnotin; now apply list_elem_of_In).
      apply lookup_delete_eq.
    + intros b' Hb'. rewrite Hout by (intros Hc; apply Hb'; now right).
      apply lookup_delete_ne. intros <-. apply Hb'. now left.
  - cbn [blocks_of] in *. apply (IH h Hnd Hlive).
Qed.

Lemma owned_new_context : owned new_context.
Proof.
  constructor; cbn.
  - intros b [tp H]. now rewrite lookup_empty in H.
  - intros b [].
  - constructor.
Qed.

Lemma owned_step inside inside' e s s' :
  nesting inside e = Some inside' -> no_dangling inside s ->
  consistent s -> owned s -> _gpx_parser e s = Done s' -> owned s'.
Proof.
  intros Hn Hnd [Hh Hc Ht Hnot] [Hreach Hlive Hdist] H.
  unfold no_dangling in Hnd.
  destruct e as [n attributes|n|text]; cbn in Hn, H.
  - destruct (String.eqb_spec n "trkpt") as [->|Hne].
    + destruct inside; [discriminate|].
      destruct (current_track_point (gpx s)) as [b0|] eqn:Hcur;
        [destruct Hnd; discriminate|].
      destruct attributes as [|a rest].
      * apply start_trkpt_empty_Done in H as (h & Hfree & ->).
        rewrite Hcur in Hfree. injection Hfree as <-.
        constructor; cbn; rewrite ?Hcur; auto.
      * apply start_trkpt_Done in H as (h & Hfree & ->); [|discriminate].
        rewrite Hcur in Hfree. injection Hfree as <-.
        constructor; cbn; [| |assumption].
        -- intros b Hb. destruct (decide (brk s = b)) as [<-|Hb']; [now right|].
           rewrite lookup_insert_ne in Hb by exact Hb'.
           destruct (Hreach b Hb) as [Hin|Hcur']; [now left|congruence].
        -- intros b Hb. rewrite lookup_insert_ne; [auto|].
           intros <-. apply Ht in Hb. lia.
    + apply String.eqb_neq in Hne.
      destruct (start_other_Done n attributes s Hne) as (c & E & _).
      rewrite E in H. injection H as <-. constructor; cbn; auto.
  - apply end_element_Done in H
      as [(_ & ->)|[(_ & Hinv & ->)|(_ & _ & h & Hfree & ->)]].
    + constructor; cbn; auto.
    + constructor; cbn.
      * intros b Hb. left. apply in_or_app.
        destruct (Hreach b Hb) as [Hin|Hcur]; [now left|].
        right. left. now symmetry.
      * intros b Hb. apply in_app_or in Hb as [Hb|[Hb|[]]]; [auto|].
        rewrite Hb in Hnd. now destruct Hnd.
      * rewrite blocks_of_app.
        destruct (current_track_point (gpx s)) as [b|] eqn:Hcur; cbn.
        -- apply NoDup_app. split; [assumption|]. split; [|repeat constructor].
           ++ intros b' Hb' Hb''. apply list_elem_of_In in Hb'.
              apply In_blocks_of in Hb'.
              apply list_elem_of_In in Hb''. destruct Hb'' as [<-|[]].
              exact (Hnot b eq_refl Hb').
           ++ intros Hc'. apply list_elem_of_In in Hc'. destruct Hc'.
        -- now rewrite app_nil_r.
    + apply g_free_Done in Hfree as [[Hnone ->]|(b & Hcur & _ & ->)].
      * constructor; cbn; [|assumption|assumption].
        intros b' Hb'. destruct (Hreach b' Hb') as [Hin|Hcur']; [now left|].
        congruence.
      * constructor; cbn; [| |assumption].
        -- intros b' Hb'. destruct (decide (b = b')) as [<-|Hne].
           ++ rewrite lookup_delete_eq in Hb'. now destruct Hb'.
           ++ rewrite lookup_delete_ne in Hb' by exact Hne.
              destruct (Hreach b' Hb') as [Hin|Hcur']; [now left|congruence].
        -- intros b' Hb'. rewrite lookup_delete_ne; [auto|].
           intros <-. exact (Hnot b Hcur Hb').
  - apply text_Done in H as [->|(b & tp & Hb & Hl & [(_ & ->)|(_ & ->)])].
    + now constructor.
    + constructor; cbn; [| |assumption].
      * intros b' Hb'. destruct (decide (b = b')) as [<-|Hne]; [now right|].
        rewrite lookup_insert_ne in Hb' by exact Hne. auto.
      * intros b' Hb'. destruct (decide (b = b')) as [<-|Hne].
        -- rewrite lookup_insert_eq. eauto.
        -- rewrite lookup_insert_ne by exact Hne. auto.
    + constructor; cbn; [| |assumption].
      * intros b' Hb'. destruct (decide (b = b')) as [<-|Hne]; [now right|].
        rewrite lookup_insert_ne in Hb' by exact Hne. auto.
      * intros b' Hb'. destruct (decide (b = b')) as [<-|Hne].
        -- rewrite lookup_insert_eq. eauto.
        -- rewrite lookup_insert_ne by exact Hne. auto.
Qed.

Lemma owned_run events : forall inside s s',
  unnested inside events = true -> no_dangling inside s ->
  consistent s -> owned s -> run_events events s = Done s' ->
  owned s' /\ exists inside', no_dangling inside' s'.
Proof.
  induction events as [|e rest IH]; intros inside s s' Hu Hnd Hs Ho H.
  - injection H as <-. split; [assumption|]. now exists inside.
  - cbn in Hu.
    destruct (nesting inside e) as [inside1|] eqn:Hn; [|discriminate].
    apply run_events_cons_Done in H as (s1 & H1 & H).
    destruct (unnested_step _ _ _ _ Hn Hnd) as (s1' & E1 & Hnd1).
    assert (s1' = s1) as -> by congruence.
    apply (IH inside1 s1 s' Hu Hnd1); [| |exact H].
    + exact (consistent_step _ _ _ Hs H1).
    + exact (owned_step _ _ _ _ _ Hn Hnd Hs Ho H1).
Qed.

(** After a document whose [trkpt] elements are not nested,
    [dt_gpx_destroy] is defined and releases every track point of the
    track; the only block it can leave behind is a point still under
    construction, which it never releases. *)
Theorem destroy_releases_track (events : list markup_event) (s : state) :
  unnested false events = true ->
  run_events events new_context = Done s ->
  exists h',
    dt_gpx_destroy s = Done h' /\
    forall b, is_Some (h' !! b) <-> current_track_point (gpx s) = Some b.
Proof.
  intros Hu H.
  destruct (owned_run events false new_context s Hu I consistent_new_context
              owned_new_context H) as ([Hreach Hlive Hdist] & inside & Hnd).
  pose proof (consistent_run _ _ _ consistent_new_context H) as Hs.
  destruct (g_list_foreach_g_free_distinct (track (gpx s)) (heap s) Hdist)
    as (h' & E & Hin & Hout).
  { intros b Hb. apply Hlive. now apply In_blocks_of. }
  exists h'. split.
  { unfold dt_gpx_destroy. destruct (track (gpx s)); exact E. }
  intros b. split.
  - intros Hb.
    destruct (in_dec Pos.eq_dec b (blocks_of (track (gpx s)))) as [Hi|Hni].
    + rewrite (Hin b Hi) in Hb. now destruct Hb.
    + rewrite (Hout b Hni) in Hb.
      destruct (Hreach b Hb) as [Hi|Hcur]; [|exact Hcur].
      exfalso. apply Hni. now apply In_blocks_of.
  - intros Hcur. unfold no_dangling in Hnd. rewrite Hcur in Hnd.
    rewrite Hout; [apply Hnd|].
    intros Hi. apply In_blocks_of in Hi.
    exact (current_not_in_track s Hs b Hcur Hi).
Qed.

(** For a document whose [trkpt] elements are not nested, the track never
    holds a pointer to a released block, and no block is the data of two
    nodes. *)
Theorem unnested_track_is_live (events : list markup_event) (s : state) :
  unnested false events = true ->
  run_events events new_context = Done s ->
  (forall b, In (Some b) (track (gpx s)) -> is_Some (heap s !! b)) /\
  NoDup (blocks_of (track (gpx s))).
Proof.
  intros Hu H.
  destruct (owned_run events false new_context s Hu I consistent_new_context
              owned_new_context H) as ([_ Hlive Hdist] & _).
  split; assumption.
Qed.

(** ** Text after an end tag *)

(** Every end-element clears the element classification, so text that
    directly follows an end tag (white space between elements, or the rest
    of a [time] or [ele] text after a nested element) is never read. *)
Theorem text_after_end_ignored (n text : string) (s : state) :
  run_events [EndElement n; Text text] s = run_events [EndElement n] s.
Proof.
  cbn [run_events _gpx_parser].
  destruct (_gpx_parser_end_element n s) as [s1|] eqn:E; [|reflexivity].
  cbn [obind].
  assert (Hcpe : current_parser_element (gpx s1) = 0%Z).
  { apply end_element_Done in E
      as [(_ & ->)|[(_ & _ & ->)|(_ & _ & h & _ & ->)]]; reflexivity. }
  unfold _gpx_parser_text. rewrite Hcpe.
  now destruct (current_track_point (gpx s1)).
Qed.

(** ** Files of 2 GiB and more *)

(** The length of the mapped file is kept in a [gint]: a file of at least
    2^31 and less than 2^32 bytes has a negative [gpxmf_size] and is
    refused like a file of fewer than 10 bytes, whatever it holds. *)
Theorem dt_gpx_new_refuses_2GiB (filename : string) (gpxmf : GMappedFile) :
  g_mapped_file_new filename = Some gpxmf ->
  (2 ^ 31 <= mapped_length gpxmf < 2 ^ 32)%Z ->
  dt_gpx_new filename = Done None.
Proof using Type.
  intros Hmap Hlen. unfold dt_gpx_new. rewrite Hmap.
  destruct (mapped_contents gpxmf); [|reflexivity].
  assert (Hneg : (to_gint (mapped_length gpxmf) < 10)%Z).
  { unfold to_gint.
    replace (mapped_length gpxmf + 2 ^ 31)%Z
      with (mapped_length gpxmf - 2 ^ 31 + 1 * 2 ^ 32)%Z by lia.
    rewrite Z_mod_plus_full, Z.mod_small by lia. lia. }
  apply Z.ltb_lt in Hneg. now rewrite Hneg.
Qed.

End Gpx.

(** * Properties of the location lookup *)

Local Open Scope Z_scope.

Lemma live_load (h : gmap block _gpx_track_point_t) (p : pointer) :
  live h p = true -> exists tp, load h p = Done tp.
Proof.
  unfold live. destruct (load h p) as [tp|]; [eauto | discriminate].
Qed.

Lemma load_Some (h : gmap block _gpx_track_point_t) (b : block)
    (tp : _gpx_track_point_t) :
  h !! b = Some tp -> load h (Some b) = Done tp.
Proof. intros E. unfold load. now rewrite E. Qed.

(** On the last node the first test of the loop body always succeeds. *)
Lemma last_node_test (q t : Z) : (true && (q >=? t)) || (q <=? t) = true.
Proof. destruct (Z.geb_spec q t), (Z.leb_spec q t); simpl; auto; lia. Qed.

Lemma scan_track_returns_in_loop (h : gmap block _gpx_track_point_t)
    (timestamp : GTimeVal) (lon0 lat0 : gdouble) (items : list pointer) :
  items <> [] ->
  forallb (live h) items = true ->
  exists r, scan_track h timestamp items lon0 lat0 = Done r /\
            (site r = out_of_range \/ site r = within_range).
Proof.
  induction items as [|item next IH]; [congruence|].
  intros _ Hlive. simpl in Hlive. apply andb_true_iff in Hlive as [Hitem Hnext].
  destruct (live_load _ _ Hitem) as [tp Htp].
  cbn [scan_track]. rewrite Htp. cbn [obind].
  destruct next as [|next_item rest].
  - rewrite last_node_test. eexists; split; [reflexivity | now left].
  - cbn [andb orb].
    destruct (Z.leb_spec (tv_sec timestamp) (tv_sec (time tp))) as [Hle|Hgt].
    + eexists; split; [reflexivity | now left].
    + assert (Hge : (tv_sec timestamp >=? tv_sec (time tp)) = true)
        by (apply Z.geb_le; lia).
      rewrite Hge.
      assert (Hni : live h next_item = true)
        by (simpl in Hnext; now apply andb_true_iff in Hnext as [? _]).
      destruct (live_load _ _ Hni) as [ntp Hntp]. rewrite Hntp. cbn [obind].
      destruct (tv_sec timestamp <=? tv_sec (time ntp)).
      * eexists; split; [reflexivity | now right].
      * apply IH; [congruence | exact Hnext].
Qed.

(** Whatever the data pointers are, a loop entered on a non-empty list never
    leaves through its [while] condition. *)
Lemma scan_track_never_falls_through (h : gmap block _gpx_track_point_t)
    (timestamp : GTimeVal) (lon0 lat0 : gdouble) (items : list pointer)
    (r : location) :
  items <> [] ->
  scan_track h timestamp items lon0 lat0 = Done r -> site r <> after_loop.
Proof.
  induction items as [|item next IH]; [congruence|].
  intros _. cbn [scan_track].
  destruct (load h item) as [tp|]; cbn [obind]; [|discriminate].
  destruct next as [|next_item rest].
  - rewrite last_node_test. intros [= <-]. discriminate.
  - cbn [andb orb].
    destruct (tv_sec timestamp <=? tv_sec (time tp)).
    { intros [= <-]. discriminate. }
    destruct (tv_sec timestamp >=? tv_sec (time tp)).
    + destruct (load h next_item) as [ntp|]; cbn [obind]; [|discriminate].
      destruct (tv_sec timestamp <=? tv_sec (time ntp)).
      * intros [= <-]. discriminate.
      * apply IH. congruence.
    + cbn [obind]. apply IH. congruence.
Qed.

Lemma scan_track_seconds_only (h h' : gmap block _gpx_track_point_t)
    (q q' : GTimeVal) (lon0 lat0 : gdouble) (items : list pointer) :
  tv_sec q = tv_sec q' ->
  heaps_same_up_to_usec h h' ->
  scan_track h q items lon0 lat0 = scan_track h' q' items lon0 lat0.
Proof.
  intros Hq Hh.
  assert (Hload : forall p,
    match load h p, load h' p with
    | Done tp, Done tp' => same_up_to_usec tp tp'
    | Undefined, Undefined => True
    | _, _ => False
    end).
  { intros [b|]; simpl; [|exact I].
    specialize (Hh b). destruct Hh; [assumption | exact I]. }
  induction items as [|item next IH]; [reflexivity|].
  cbn [scan_track].
  pose proof (Hload item) as Hi.
  destruct (load h item) as [tp|], (load h' item) as [tp'|];
    try contradiction; [|reflexivity].
  destruct Hi as (Hlon & Hlat & _ & Hsec).
  cbn [obind]. rewrite <- Hq, <- Hsec, <- Hlon, <- Hlat.
  destruct (_ || _); [reflexivity|].
  destruct (tv_sec q >=? tv_sec (time tp)).
  - destruct next as [|next_item rest]; [reflexivity|].
    pose proof (Hload next_item) as Hn.
    destruct (load h next_item) as [ntp|], (load h' next_item) as [ntp'|];
      try contradiction; [|reflexivity].
    destruct Hn as (_ & _ & _ & Hnsec).
    cbn [obind]. rewrite <- Hnsec.
    destruct (tv_sec q <=? tv_sec (time ntp)); [reflexivity | exact IH].
  - cbn [obind]. exact IH.
Qed.

(** C4. On a track of exactly two points [A] (at 100 s) and [B] (at 200 s),
    whatever the sub-second parts: a query at 150 s returns TRUE with the
    coordinates of [A]; queries at 100 s and at 50 s return FALSE with the
    coordinates of [A]; a query at 250 s returns FALSE with the coordinates
    of [B]. *)
Theorem two_point_track_lookup (s : state) (a b : block)
    (A B : _gpx_track_point_t) (usec : Z) (lon0 lat0 : gdouble) :
  track (gpx s) = [Some a; Some b] ->
  heap s !! a = Some A -> heap s !! b = Some B ->
  tv_sec (time A) = 100 -> tv_sec (time B) = 200 ->
  dt_gpx_get_location s (mkGTimeVal 150 usec) lon0 lat0
    = Done (mk_location within_range true (longitude A) (latitude A)) /\
  dt_gpx_get_location s (mkGTimeVal 100 usec) lon0 lat0
    = Done (mk_location out_of_range false (longitude A) (latitude A)) /\
  dt_gpx_get_location s (mkGTimeVal 50 usec) lon0 lat0
    = Done (mk_location out_of_range false (longitude A) (latitude A)) /\
  dt_gpx_get_location s (mkGTimeVal 250 usec) lon0 lat0
    = Done (mk_location out_of_range false (longitude B) (latitude B)).
Proof.
  intros Htrack Ha Hb HA HB. unfold dt_gpx_get_location. rewrite Htrack.
  cbn [scan_track]. rewrite (load_Some _ _ _ Ha), (load_Some _ _ _ Hb).
  cbn [obind tv_sec]. rewrite HA, HB. repeat split; reflexivity.
Qed.

(** C5. On a track of at least two entries, each of which points to a live
    track point, the lookup returns from inside the loop, through the
    out-of-range or the in-range branch; the [return] after the loop is not
    reached. *)
Theorem lookup_returns_inside_loop (s : state) (timestamp : GTimeVal)
    (lon0 lat0 : gdouble) :
  (2 <= length (track (gpx s)))%nat ->
  forallb (live (heap s)) (track (gpx s)) = true ->
  exists r,
    dt_gpx_get_location s timestamp lon0 lat0 = Done r /\
    (site r = out_of_range \/ site r = within_range).
Proof.
  intros Hlen Hlive. unfold dt_gpx_get_location.
  destruct (track (gpx s)) as [|p [|p' rest]] eqn:E; cbn in Hlen; try lia.
  apply scan_track_returns_in_loop; [discriminate | exact Hlive].
Qed.

(** C6. On a track of fewer than two entries the lookup returns FALSE at
    its first check and leaves the two output locations as they were. *)
Theorem lookup_too_few_trackpoints (s : state) (timestamp : GTimeVal)
    (lon0 lat0 : gdouble) :
  (length (track (gpx s)) < 2)%nat ->
  dt_gpx_get_location s timestamp lon0 lat0
    = Done (mk_location too_few_trackpoints false lon0 lat0).
Proof.
  intros Hlen. unfold dt_gpx_get_location.
  destruct (track (gpx s)) as [|p [|p' rest]]; cbn in Hlen; try lia;
    reflexivity.
Qed.

(** C10. The lookup reads only the seconds of timestamps: two queries with
    the same [tv_sec], on two tracks that differ at most in the [tv_usec]
    of their points, have the same outcome (the same return value, the same
    longitude and latitude written). *)
Theorem lookup_reads_seconds_only (s s' : state) (q q' : GTimeVal)
    (lon0 lat0 : gdouble) :
  track (gpx s) = track (gpx s') ->
  heaps_same_up_to_usec (heap s) (heap s') ->
  tv_sec q = tv_sec q' ->
  dt_gpx_get_location s q lon0 lat0 = dt_gpx_get_location s' q' lon0 lat0.
Proof.
  intros Htrack Hheap Hq. unfold dt_gpx_get_location. rewrite <- Htrack.
  destruct (track (gpx s)) as [|p [|p' rest]]; try reflexivity.
  now apply scan_track_seconds_only.
Qed.


(** ** What the lookup returns *)

Lemma returned_from_cons (h : gmap block _gpx_track_point_t)
    (item : pointer) (tp : _gpx_track_point_t) (next : list pointer)
    (timestamp : GTimeVal) (r : location) :
  load h item = Done tp -> seconds tp < tv_sec timestamp ->
  returned_from h next timestamp r ->
  returned_from h (item :: next) timestamp r.
Proof.
  intros Hitem Hlt (i & p & tpi & Hi & Hp & Hlon & Hlat & Hbefore & Hsite).
  exists (S i), p, tpi. repeat split; try assumption.
  - intros [|j] item' tp' Hj Hl Hload.
    + cbn in Hl. injection Hl as <-. congruence.
    + apply (Hbefore j item' tp'); [lia | exact Hl | exact Hload].
  - destruct (site r); try assumption.
    destruct Hsite as (Hf & [Hle|Hlast]); split; auto.
    right. cbn. now rewrite Hlast.
Qed.

Lemma scan_track_returned_from (h : gmap block _gpx_track_point_t)
    (timestamp : GTimeVal) (lon0 lat0 : gdouble) (items : list pointer)
    (r : location) :
  items <> [] ->
  scan_track h timestamp items lon0 lat0 = Done r ->
  returned_from h items timestamp r.
Proof.
  induction items as [|item next IH]; [congruence|].
  intros _. cbn [scan_track].
  destruct (load h item) as [tp|] eqn:Hitem; cbn [obind]; [|discriminate].
  assert (Hnone : forall j item' tp', (j < 0)%nat ->
            (item :: next) !! j = Some item' -> load h item' = Done tp' ->
            seconds tp' < tv_sec timestamp) by (intros; lia).
  destruct next as [|next_item rest].
  - rewrite last_node_test. intros [= <-].
    exists 0%nat, item, tp. repeat split; auto.
  - cbn [andb orb]. unfold seconds in *.
    destruct (Z.leb_spec (tv_sec timestamp) (tv_sec (time tp)))
      as [Hle|Hout'].
    { intros [= <-]. exists 0%nat, item, tp. repeat split; auto. }
    assert (Hge : (tv_sec timestamp >=? tv_sec (time tp)) = true)
      by (apply Z.geb_le; lia).
    rewrite Hge.
    destruct (load h next_item) as [ntp|] eqn:Hnext; cbn [obind];
      [|discriminate].
    destruct (Z.leb_spec (tv_sec timestamp) (tv_sec (time ntp))) as [Hin|Hout].
    + intros [= <-]. exists 0%nat, item, tp. repeat split; auto.
      exists next_item, ntp. repeat split; auto.
    + intros H.
      apply (returned_from_cons h item tp); [exact Hitem | exact Hout' |].
      apply IH; [discriminate | exact H].
Qed.

(** Every result of [dt_gpx_get_location] that is not the refusal of a
    track of fewer than two entries holds the coordinates of one point of
    the track, the first at which the loop stops: all points before it are
    strictly earlier than the query; FALSE is returned at a point that is
    not earlier than the query, or at the last point; TRUE is returned at a
    point strictly earlier than the query whose successor is not earlier
    than the query. *)
Theorem lookup_returns_point_of_track (s : state) (timestamp : GTimeVal)
    (lon0 lat0 : gdouble) (r : location) :
  dt_gpx_get_location s timestamp lon0 lat0 = Done r ->
  site r <> too_few_trackpoints ->
  returned_from (heap s) (track (gpx s)) timestamp r.
Proof.
  unfold dt_gpx_get_location.
  destruct (track (gpx s)) as [|p [|p' rest]].
  - intros [= <-]. cbn. congruence.
  - intros [= <-]. cbn. congruence.
  - intros H _. apply (scan_track_returned_from _ _ lon0 lat0);
      [discriminate | exact H].
Qed.

Lemma chronological_last (tp : _gpx_track_point_t)
    (tps : list _gpx_track_point_t) (d : _gpx_track_point_t) :
  chronological (tp :: tps) = true ->
  seconds tp <= seconds (List.last (tp :: tps) d).
Proof.
  revert tp. induction tps as [|ntp rest IH]; intros tp H; [cbn; lia|].
  cbn [chronological] in H. apply andb_true_iff in H as [Hle H].
  apply Z.leb_le in Hle. specialize (IH ntp H).
  change (List.last (tp :: ntp :: rest) d) with (List.last (ntp :: rest) d).
  lia.
Qed.

(** Past the first point of a chronological track, with the query strictly
    later than the point the loop is at, the loop returns TRUE exactly when
    the query is not later than the last point. *)
Lemma scan_track_chronological (h : gmap block _gpx_track_point_t)
    (timestamp : GTimeVal) (lon0 lat0 : gdouble) (items : list pointer) :
  forall (tp : _gpx_track_point_t) (tps : list _gpx_track_point_t),
  track_points h items = Some (tp :: tps) ->
  chronological (tp :: tps) = true ->
  seconds tp < tv_sec timestamp ->
  exists r,
    scan_track h timestamp items lon0 lat0 = Done r /\
    (found r = true <->
     tv_sec timestamp <= seconds (List.last (tp :: tps) zero_track_point)).
Proof.
  induction items as [|item next IH]; intros tp tps Hpts Hchr Hlt;
    [discriminate|].
  cbn [track_points] in Hpts.
  destruct (load h item) as [tp0|] eqn:Hitem; [|discriminate].
  destruct (track_points h next) as [tps0|] eqn:Hnext; [|discriminate].
  injection Hpts as -> ->.
  cbn [scan_track]. rewrite Hitem. cbn [obind]. unfold seconds in *.
  destruct next as [|next_item rest].
  - cbn in Hnext. injection Hnext as <-.
    rewrite last_node_test. eexists. split; [reflexivity|].
    cbn. split; [discriminate | lia].
  - cbn [andb orb].
    destruct (Z.leb_spec (tv_sec timestamp) (tv_sec (time tp))) as [Hle|_];
      [lia|].
    assert (Hge : (tv_sec timestamp >=? tv_sec (time tp)) = true)
      by (apply Z.geb_le; lia).
    rewrite Hge.
    cbn [track_points] in Hnext.
    destruct (load h next_item) as [ntp|] eqn:Hni; [|discriminate].
    destruct (track_points h rest) as [tps1|] eqn:Hrest; [|discriminate].
    injection Hnext as <-. cbn [obind].
    pose proof Hchr as Hchr'.
    cbn [chronological] in Hchr'. apply andb_true_iff in Hchr' as [_ Hchr'].
    change (List.last (tp :: ntp :: tps1) zero_track_point)
      with (List.last (ntp :: tps1) zero_track_point).
    destruct (Z.leb_spec (tv_sec timestamp) (tv_sec (time ntp))) as [Hin|Hout].
    + eexists. split; [reflexivity|]. cbn [found].
      split; [intros _|reflexivity].
      pose proof (chronological_last ntp tps1 zero_track_point Hchr') as Hl.
      unfold seconds in Hl. lia.
    + apply (IH ntp tps1); [reflexivity | exact Hchr' | exact Hout].
Qed.

Lemma found_within_span (s : state) (timestamp : GTimeVal)
    (lon0 lat0 : gdouble) (tps : list _gpx_track_point_t) :
  track_points (heap s) (track (gpx s)) = Some tps ->
  (2 <= length tps)%nat ->
  chronological tps = true ->
  exists r,
    dt_gpx_get_location s timestamp lon0 lat0 = Done r /\
    (found r = true <->
     seconds (List.hd zero_track_point tps) < tv_sec timestamp /\
     tv_sec timestamp <= seconds (List.last tps zero_track_point)).
Proof.
  intros Hpts Hlen Hchr. unfold dt_gpx_get_location.
  destruct (track (gpx s)) as [|p [|p' rest]] eqn:Etrack.
  - cbn in Hpts. injection Hpts as <-. cbn in Hlen. lia.
  - cbn in Hpts. destruct (load (heap s) p); [|discriminate].
    injection Hpts as <-. cbn in Hlen. lia.
  - destruct tps as [|tp tps']; [cbn in Hlen; lia|]. cbn [List.hd].
    destruct (Z.ltb_spec (seconds tp) (tv_sec timestamp)) as [Hlt|Hge].
    + destruct (scan_track_chronological (heap s) timestamp lon0 lat0
                  (p :: p' :: rest) tp tps' Hpts Hchr Hlt) as (r & Hr & Hiff).
      exists r. split; [exact Hr|]. rewrite Hiff. tauto.
    + change (track_points (heap s) (p :: p' :: rest))
        with (match load (heap s) p, track_points (heap s) (p' :: rest) with
              | Done tp, Some tps => Some (tp :: tps)
              | _, _ => None
              end) in Hpts.
      destruct (load (heap s) p) as [tp0|] eqn:Hp; [|discriminate].
      destruct (track_points (heap s) (p' :: rest)); [|discriminate].
      injection Hpts as -> _.
      cbn [scan_track]. rewrite Hp. cbn [obind andb orb].
      unfold seconds in Hge.
      destruct (Z.leb_spec (tv_sec timestamp) (tv_sec (time tp))) as [_|Hgt];
        [|lia].
      eexists. split; [reflexivity|]. cbn. unfold seconds.
      split; [discriminate | lia].
Qed.

(** On a chronological track of at least two points the lookup returns
    TRUE exactly for the queries that are strictly later than the first
    point and not later than the last one (in whole seconds). *)
Theorem lookup_found_within_span (s : state) (timestamp : GTimeVal)
    (lon0 lat0 : gdouble) (tps : list _gpx_track_point_t) :
  track_points (heap s) (track (gpx s)) = Some tps ->
  (2 <= length tps)%nat ->
  chronological tps = true ->
  exists r,
    dt_gpx_get_location s timestamp lon0 lat0 = Done r /\
    (found r = true <->
     seconds (List.hd zero_track_point tps) < tv_sec timestamp /\
     tv_sec timestamp <= seconds (List.last tps zero_track_point)).
Proof. apply found_within_span. Qed.

(** Whatever the track holds (NULL data and pointers to released blocks
    included), a call that returns does not return from the statement
    after the loop. *)
Theorem lookup_never_returns_after_loop (s : state) (timestamp : GTimeVal)
    (lon0 lat0 : gdouble) (r : location) :
  dt_gpx_get_location s timestamp lon0 lat0 = Done r ->
  site r <> after_loop.
Proof.
  unfold dt_gpx_get_location.
  destruct (track (gpx s)) as [|p [|p' rest]].
  - intros [= <-]. discriminate.
  - intros [= <-]. discriminate.
  - apply scan_track_never_falls_through. discriminate.
Qed.

(** Parsing, then looking up: for a regular document whose accepted track
    points are at least two and chronological, the callbacks build a track
    on which the lookup returns TRUE exactly for the queries strictly
    later than the first accepted point and not later than the last. *)
Theorem regular_document_lookup
    (g_ascii_strtod : string -> gdouble)
    (g_time_val_from_iso8601 : string -> GTimeVal -> bool * GTimeVal)
    (items : list document_item) (timestamp : GTimeVal)
    (lon0 lat0 : gdouble) :
  forallb regular_item items = true ->
  (2 <= length (document_points g_ascii_strtod g_time_val_from_iso8601
                  items))%nat ->
  chronological (document_points g_ascii_strtod g_time_val_from_iso8601 items)
    = true ->
  exists s r,
    run_events g_ascii_strtod g_time_val_from_iso8601
      (document_events items) new_context = Done s /\
    dt_gpx_get_location s timestamp lon0 lat0 = Done r /\
    (found r = true <->
     seconds (List.hd zero_track_point
                (document_points g_ascii_strtod g_time_val_from_iso8601 items))
       < tv_sec timestamp /\
     tv_sec timestamp <=
       seconds (List.last
                  (document_points g_ascii_strtod g_time_val_from_iso8601 items)
                  zero_track_point)).
Proof.
  intros Hreg Hlen Hchr.
  destruct (regular_run g_ascii_strtod g_time_val_from_iso8601 items
              ∅ 1%positive [] 0 false [] Hreg) as (s & Hrun & _ & Hpts).
  - intros b [tp Hb]. now rewrite lookup_empty in Hb.
  - intros b [].
  - reflexivity.
  - destruct (found_within_span s timestamp lon0 lat0 _ Hpts Hlen Hchr)
      as (r & Hr & Hiff).
    exists s, r. split; [exact Hrun|]. split; [exact Hr | exact Hiff].
Qed.
(** * The claims at sample inputs *)

(** C7, at the file holding
    [<trkpt lon='11.5' lat='48.25'><trkpt><trkpt></trkpt></trkpt></trkpt>]
    (68 bytes, well-formed): the second [trkpt] releases the block of the
    first and keeps the pointer, the third releases it again, so the call
    of [dt_gpx_new] has no defined result and returns no context. *)
Theorem nested_trkpt_parse_undefined
    (g_ascii_strtod : string -> gdouble)
    (g_time_val_from_iso8601 : string -> GTimeVal -> bool * GTimeVal)
    (filename : string) :
  dt_gpx_new g_ascii_strtod g_time_val_from_iso8601
    sample_mapped_file sample_tokeniser filename = Undefined.
Proof.
  unfold dt_gpx_new, sample_mapped_file, sample_tokeniser.
  cbn [mapped_contents mapped_length].
  change (to_gint (Z.of_nat (String.length nested_trkpt_text)) <? 10)
    with false.
  cbv iota. now rewrite nested_trkpt_undefined.
Qed.

(** C2 as stated fails at [<trkpt lon='11.5' lat='48.25'></trkpt>]: the
    element has no [time] child, no timestamp is ever parsed, and the point
    is in the finished track, with the timestamp zero. *)
Lemma trkpt_without_time_is_stored :
  trkpt_without_time =
    trkpt_element [("lon", "11.5"); ("lat", "48.25")] [] /\
  exists s,
    run_events sample_strtod sample_iso8601 trkpt_without_time new_context
      = Done s /\
    track (gpx s) = [Some 1%positive] /\
    heap s !! 1%positive =
      Some (mk_track_point double_11_5 double_48_25 zero_double
              (mkGTimeVal 0 0)).
Proof.
  split; [reflexivity|]. eexists. split; [vm_compute; reflexivity|].
  split; reflexivity.
Qed.

(** C2: the second part at the sample document
    [<gpx><trk><trkseg><trkpt lon='11.5' lat='48.25'><ele>520</ele></trkpt>
    </trkseg></trk></gpx>]. *)
Lemma stored_timestamp_default_or_parsed_witness :
  exists (s0 : state) (b : block) (tp : _gpx_track_point_t)
         (later : list pointer),
    run_events sample_strtod sample_iso8601 gpx_prologue new_context = Done s0 /\
    track (gpx (final_state
                  (run_events sample_strtod sample_iso8601
                     (gpx_prologue ++
                      trkpt_element [("lon", "11.5"); ("lat", "48.25")]
                        [StartElement "ele" []; Text "520"; EndElement "ele"] ++
                      gpx_epilogue) new_context) new_context))
      = (track (gpx s0) ++ Some b :: later)%list /\
    heap (final_state
            (run_events sample_strtod sample_iso8601
               (gpx_prologue ++
                trkpt_element [("lon", "11.5"); ("lat", "48.25")]
                  [StartElement "ele" []; Text "520"; EndElement "ele"] ++
                gpx_epilogue) new_context) new_context) !! b = Some tp /\
    longitude tp = sample_strtod "11.5" /\
    latitude tp = sample_strtod "48.25" /\
    time tp = mkGTimeVal 0 0.
Proof.
  apply (proj2 (stored_timestamp_default_or_parsed sample_strtod sample_iso8601)
           gpx_prologue gpx_epilogue
           [StartElement "ele" []; Text "520"; EndElement "ele"]
           [("lon", "11.5"); ("lat", "48.25")] "11.5" "48.25");
    reflexivity.
Defined.


(** C9 at the sample document
    [<gpx><trk><trkseg><trkpt lon='11.5' lat='48.25'>
    <time>2011-06-05T12:30:00Z</time></trkpt></trkseg></trk></gpx>]. *)
Lemma trkpt_with_time_is_stored_witness :
  exists (s0 : state) (b : block) (tp : _gpx_track_point_t)
         (later : list pointer),
    run_events sample_strtod sample_iso8601 gpx_prologue new_context = Done s0 /\
    track (gpx (final_state
                  (run_events sample_strtod sample_iso8601
                     (gpx_prologue ++
                      trkpt_element [("lon", "11.5"); ("lat", "48.25")]
                        ([] ++ time_element [] "2011-06-05T12:30:00Z" ++ []) ++
                      gpx_epilogue) new_context) new_context))
      = (track (gpx s0) ++ Some b :: later)%list /\
    ~ In (Some b) (track (gpx s0)) /\ ~ In (Some b) later /\
    heap (final_state
            (run_events sample_strtod sample_iso8601
               (gpx_prologue ++
                trkpt_element [("lon", "11.5"); ("lat", "48.25")]
                  ([] ++ time_element [] "2011-06-05T12:30:00Z" ++ []) ++
                gpx_epilogue) new_context) new_context) !! b = Some tp /\
    longitude tp = sample_strtod "11.5" /\
    latitude tp = sample_strtod "48.25" /\
    time tp = mkGTimeVal 1307277000 0 /\
    (existsb (opens "ele") ([] ++ []) = false -> elevation tp = zero_double).
Proof.
  apply (trkpt_with_time_is_stored sample_strtod sample_iso8601
           gpx_prologue gpx_epilogue [] []
           [("lon", "11.5"); ("lat", "48.25")] [] "2011-06-05T12:30:00Z"
           "11.5" "48.25" (mkGTimeVal 1307277000 0));
    reflexivity.
Defined.

(** C4 at the sample track of two points. *)
Lemma two_point_track_lookup_witness :
  dt_gpx_get_location two_point_track (mkGTimeVal 150 0) NAN NAN
    = Done (mk_location within_range true double_11_5 double_48_25) /\
  dt_gpx_get_location two_point_track (mkGTimeVal 100 0) NAN NAN
    = Done (mk_location out_of_range false double_11_5 double_48_25) /\
  dt_gpx_get_location two_point_track (mkGTimeVal 50 0) NAN NAN
    = Done (mk_location out_of_range false double_11_5 double_48_25) /\
  dt_gpx_get_location two_point_track (mkGTimeVal 250 0) NAN NAN
    = Done (mk_location out_of_range false double_48_25 double_11_5).
Proof.
  apply (two_point_track_lookup two_point_track 1%positive 2%positive
           point_A point_B 0 NAN NAN); reflexivity.
Defined.

(** C5 at the sample track of two points. *)
Lemma lookup_returns_inside_loop_witness :
  exists r,
    dt_gpx_get_location two_point_track (mkGTimeVal 1000 0) NAN NAN = Done r /\
    (site r = out_of_range \/ site r = within_range).
Proof.
  apply (lookup_returns_inside_loop two_point_track (mkGTimeVal 1000 0) NAN NAN).
  - simpl. lia.
  - reflexivity.
Defined.

(** C6 at the sample track of one point. *)
Lemma lookup_too_few_trackpoints_witness :
  dt_gpx_get_location one_point_track (mkGTimeVal 100 0) NAN zero_double
    = Done (mk_location too_few_trackpoints false NAN zero_double).
Proof.
  apply (lookup_too_few_trackpoints one_point_track (mkGTimeVal 100 0)
           NAN zero_double).
  simpl. lia.
Defined.

(** C10 at the sample track of two points, against the same track with
    every [tv_usec] set to 999999, and two queries within the same second. *)
Lemma lookup_reads_seconds_only_witness :
  dt_gpx_get_location two_point_track (mkGTimeVal 150 0) NAN NAN =
  dt_gpx_get_location
    (mk_state (with_usec 999999 <$> heap two_point_track) (brk two_point_track)
       (gpx two_point_track))
    (mkGTimeVal 150 250000) NAN NAN.
Proof.
  apply (lookup_reads_seconds_only two_point_track
           (mk_state (with_usec 999999 <$> heap two_point_track)
              (brk two_point_track) (gpx two_point_track))
           (mkGTimeVal 150 0) (mkGTimeVal 150 250000) NAN NAN).
  - reflexivity.
  - intros b. cbn [heap]. rewrite lookup_fmap.
    destruct (heap two_point_track !! b) as [tp|]; constructor.
    repeat split.
  - reflexivity.
Defined.

(** The validation at the start of a [trkpt], at an element without [lon]
    and [lat]. *)
Lemma start_trkpt_never_invalid_witness :
  invalid_track_point
    (gpx (final_state
            (_gpx_parser_start_element sample_strtod "trkpt"
               [("name", "summit")] new_context) new_context)) = false.
Proof.
  apply (start_trkpt_never_invalid sample_strtod [("name", "summit")]
           new_context).
  reflexivity.
Defined.


(** * Further properties at sample inputs *)

Lemma dt_gpx_new_context_inversion_witness :
  exists (gpxmf : GMappedFile) (gpxmf_content : string)
         (events : list markup_event),
    Some (mk_mapped_file (Some one_trkpt_text)
            (Z.of_nat (String.length one_trkpt_text))) = Some gpxmf /\
    mapped_contents gpxmf = Some gpxmf_content /\
    (10 <= to_gint (mapped_length gpxmf))%Z /\
    (one_trkpt, false) = (events, false) /\
    run_events sample_strtod sample_iso8601 events new_context
      = Done (final_state
                (run_events sample_strtod sample_iso8601 one_trkpt new_context)
                new_context).
Proof.
  apply (dt_gpx_new_context_inversion sample_strtod sample_iso8601
           (fun _ => Some (mk_mapped_file (Some one_trkpt_text)
                             (Z.of_nat (String.length one_trkpt_text))))
           (fun _ _ => (one_trkpt, false)) "track.gpx").
  reflexivity.
Defined.

Lemma no_trkpt_no_track_witness :
  run_events sample_strtod sample_iso8601 metadata_only new_context
    = Done new_context.
Proof.
  apply (no_trkpt_no_track sample_strtod sample_iso8601 metadata_only).
  reflexivity.
Defined.

Lemma track_only_grows_witness :
  exists added,
    track (gpx (final_state
                  (run_events sample_strtod sample_iso8601 one_trkpt
                     two_point_track) new_context))
      = (track (gpx two_point_track) ++ added)%list /\
    (length added <= length (List.filter closes_trkpt one_trkpt))%nat.
Proof.
  apply (track_only_grows sample_strtod sample_iso8601 one_trkpt
           two_point_track).
  reflexivity.
Defined.

Lemma start_trkpt_coordinates_witness :
  exists tp,
    building (brk new_context) tp
      (final_state
         (_gpx_parser_start_element sample_strtod "trkpt"
            [("lon", "0"); ("name", "summit"); ("lon", "11.5")] new_context)
         new_context) /\
    longitude tp = sample_strtod "11.5" /\
    latitude tp = NAN /\
    elevation tp = zero_double /\
    time tp = mkGTimeVal 0 0.
Proof.
  apply (start_trkpt_coordinates sample_strtod
           [("lon", "0"); ("name", "summit"); ("lon", "11.5")] new_context).
  - discriminate.
  - reflexivity.
Defined.

Lemma reopened_trkpt_discards_previous_witness :
  exists s0,
    run_events sample_strtod sample_iso8601 [] new_context = Done s0 /\
    heap (final_state
            (run_events sample_strtod sample_iso8601 reopened_trkpt new_context)
            new_context) !! brk s0 = None /\
    ~ In (Some (brk s0))
        (track (gpx (final_state
                       (run_events sample_strtod sample_iso8601 reopened_trkpt
                          new_context) new_context))).
Proof.
  apply (reopened_trkpt_discards_previous sample_strtod sample_iso8601
           [] [StartElement "ele" []; Text "520"; EndElement "ele"]
           [EndElement "trkpt"; EndElement "trkpt"]
           [("lon", "11.5")] [("lat", "48.25")]).
  - discriminate.
  - discriminate.
  - reflexivity.
  - reflexivity.
Defined.

Lemma regular_document_track_witness :
  exists s,
    run_events sample_strtod sample_iso8601 (document_events regular_sample)
      new_context = Done s /\
    current_track_point (gpx s) = NULL /\
    track_points (heap s) (track (gpx s))
      = Some [mk_track_point double_11_5 double_48_25 zero_double
                (mkGTimeVal 0 0);
              mk_track_point double_48_25 double_11_5 double_11_5
                (mkGTimeVal 1307277000 0)].
Proof.
  apply (regular_document_track sample_strtod sample_iso8601 regular_sample).
  reflexivity.
Defined.

Lemma destroy_releases_track_witness :
  exists h',
    dt_gpx_destroy
      (mk_state
         (<[3%positive := mk_track_point double_48_25 double_11_5 double_11_5
                            (mkGTimeVal 1307277000 0)]>
            (<[1%positive := mk_track_point double_11_5 double_48_25
                               zero_double (mkGTimeVal 0 0)]> ∅))
         4%positive
         (mk_gpx [Some 1%positive; Some 3%positive] NULL 0 false))
      = Done h' /\
    forall b,
      is_Some (h' !! b) <->
      current_track_point
        (gpx (mk_state
                (<[3%positive := mk_track_point double_48_25 double_11_5
                                   double_11_5 (mkGTimeVal 1307277000 0)]>
                   (<[1%positive := mk_track_point double_11_5 double_48_25
                                      zero_double (mkGTimeVal 0 0)]> ∅))
                4%positive
                (mk_gpx [Some 1%positive; Some 3%positive] NULL 0 false)))
        = Some b.
Proof.
  apply (destroy_releases_track sample_strtod sample_iso8601
           (document_events regular_sample)
           (mk_state
              (<[3%positive := mk_track_point double_48_25 double_11_5
                                 double_11_5 (mkGTimeVal 1307277000 0)]>
                 (<[1%positive := mk_track_point double_11_5 double_48_25
                                    zero_double (mkGTimeVal 0 0)]> ∅))
              4%positive
              (mk_gpx [Some 1%positive; Some 3%positive] NULL 0 false))).
  - vm_compute. reflexivity.
  - vm_compute. reflexivity.
Defined.

Lemma lookup_returns_point_of_track_witness :
  returned_from (heap two_point_track) (track (gpx two_point_track))
    (mkGTimeVal 200 0)
    (mk_location within_range true double_11_5 double_48_25).
Proof.
  apply (lookup_returns_point_of_track two_point_track (mkGTimeVal 200 0)
           NAN NAN).
  - reflexivity.
  - discriminate.
Defined.

Lemma lookup_found_within_span_witness :
  exists r,
    dt_gpx_get_location two_point_track (mkGTimeVal 200 0) NAN NAN = Done r /\
    (found r = true <->
     seconds (List.hd zero_track_point [point_A; point_B]) < 200 /\
     200 <= seconds (List.last [point_A; point_B] zero_track_point)).
Proof.
  apply (lookup_found_within_span two_point_track (mkGTimeVal 200 0) NAN NAN
           [point_A; point_B]).
  - reflexivity.
  - simpl. lia.
  - reflexivity.
Defined.

Lemma lookup_never_returns_after_loop_witness :
  site (mk_location out_of_range false double_48_25 double_11_5)
    <> after_loop.
Proof.
  apply (lookup_never_returns_after_loop two_point_track (mkGTimeVal 250 0)
           NAN NAN).
  reflexivity.
Defined.

Lemma regular_document_lookup_witness :
  exists s r,
    run_events sample_strtod sample_iso8601 (document_events regular_sample)
      new_context = Done s /\
    dt_gpx_get_location s (mkGTimeVal 1000 0) NAN NAN = Done r /\
    (found r = true <->
     seconds (List.hd zero_track_point
                (document_points sample_strtod sample_iso8601 regular_sample))
       < 1000 /\
     1000 <=
       seconds (List.last
                  (document_points sample_strtod sample_iso8601 regular_sample)
                  zero_track_point)).
Proof.
  apply (regular_document_lookup sample_strtod sample_iso8601 regular_sample
           (mkGTimeVal 1000 0) NAN NAN).
  - reflexivity.
  - simpl. lia.
  - reflexivity.
Defined.

Lemma unnested_track_is_live_witness :
  (forall b,
     In (Some b)
        (track (gpx (mk_state
                       (<[3%positive := mk_track_point double_48_25
                                          double_11_5 double_11_5
                                          (mkGTimeVal 1307277000 0)]>
                          (<[1%positive := mk_track_point double_11_5
                                             double_48_25 zero_double
                                             (mkGTimeVal 0 0)]> ∅))
                       4%positive
                       (mk_gpx [Some 1%positive; Some 3%positive] NULL 0
                          false)))) ->
     is_Some
       (heap (mk_state
                (<[3%positive := mk_track_point double_48_25 double_11_5
                                   double_11_5 (mkGTimeVal 1307277000 0)]>
                   (<[1%positive := mk_track_point double_11_5 double_48_25
                                      zero_double (mkGTimeVal 0 0)]> ∅))
                4%positive
                (mk_gpx [Some 1%positive; Some 3%positive] NULL 0 false))
        !! b)) /\
  NoDup (blocks_of
           (track (gpx (mk_state
                          (<[3%positive := mk_track_point double_48_25
                                             double_11_5 double_11_5
                                             (mkGTimeVal 1307277000 0)]>
                             (<[1%positive := mk_track_point double_11_5
                                                double_48_25 zero_double
                                                (mkGTimeVal 0 0)]> ∅))
                          4%positive
                          (mk_gpx [Some 1%positive; Some 3%positive] NULL 0
                             false))))).
Proof.
  apply (unnested_track_is_live sample_strtod sample_iso8601
           (document_events regular_sample)
           (mk_state
              (<[3%positive := mk_track_point double_48_25 double_11_5
                                 double_11_5 (mkGTimeVal 1307277000 0)]>
                 (<[1%positive := mk_track_point double_11_5 double_48_25
                                    zero_double (mkGTimeVal 0 0)]> ∅))
              4%positive
              (mk_gpx [Some 1%positive; Some 3%positive] NULL 0 false))).
  - vm_compute. reflexivity.
  - vm_compute. reflexivity.
Defined.

Lemma dt_gpx_new_refuses_2GiB_witness :
  dt_gpx_new sample_strtod sample_iso8601
    (fun _ => Some (mk_mapped_file (Some one_trkpt_text) (3 * 2 ^ 30)))
    (fun _ _ => (one_trkpt, false)) "track.gpx" = Done None.
Proof.
  apply (dt_gpx_new_refuses_2GiB sample_strtod sample_iso8601
           (fun _ => Some (mk_mapped_file (Some one_trkpt_text) (3 * 2 ^ 30)))
           (fun _ _ => (one_trkpt, false)) "track.gpx"
           (mk_mapped_file (Some one_trkpt_text) (3 * 2 ^ 30))).
  - reflexivity.
  - simpl. lia.
Defined.
